(** * ChatLab filter preview: block navigation, result projection,
      token estimate and session picker

    A shallow embedding of the Vue components of the filter tab and of
    two neighbours:

    - [PreviewPanel.vue]: the block index pane, the message pane, the
      handlers [selectBlock], [goToNextBlock], [goToPrevBlock], the two
      watchers, the two [setTimeout] callbacks and the row labels;
    - [FilterTab.vue]: the computed values [estimatedTokens] and
      [tokenStatus], and the run of a filter from the click to the
      settled call;
    - [SessionPanel.vue]: the flattened list and the selection set with
      [toggleSession], [selectDate] and [isDateFullySelected];
    - [ConditionPanel.vue]: the keyword and sender lists;
    - the updater of the main process: the version comparison and the
      handlers of the update events;
    - [ImportPresetModal.vue]: the groups of remote presets.

    JavaScript numbers that hold identifiers, indices, counts and
    timestamps are integers and are modelled by [Z].  The only
    non-integer arithmetic, [totalChars * 1.5], is modelled by the
    binary64 product: the exact rational product rounded to the nearest
    number with a 53-bit significand, ties to even.  It is exact as
    long as [3 * |totalChars| <= 2^53]. *)

From Stdlib Require Import ZArith QArith Qround Lia DecimalString Ascii.
From stdpp Require Import base decidable option list gmap strings.

Local Open Scope Z_scope.

(** ** JavaScript values *)

(** The result of an expression that yields an object, [null] or
    [undefined].  Both absent values are falsy; only [ref] is truthy. *)
Inductive jsref (A : Type) : Type :=
  | null
  | undefined
  | ref (a : A).
Arguments null {A}.
Arguments undefined {A}.
Arguments ref {A} a.

Definition truthy {A} (v : jsref A) : bool :=
  match v with
  | ref _ => true
  | _ => false
  end.

(** [arr[i]] for an integer [i]: [undefined] outside [0, arr.length). *)
Definition js_index {A} (arr : list A) (i : Z) : jsref A :=
  if decide (0 <= i) then
    match arr !! Z.to_nat i with
    | Some a => ref a
    | None => undefined
    end
  else undefined.

(** [arr.length] as an integer. *)
Definition js_length {A} (arr : list A) : Z := Z.of_nat (length arr).

(** [String(n)] and the interpolation of an integer in a template
    literal: decimal digits, with a leading minus sign when negative. *)
Definition js_toString (n : Z) : string :=
  NilZero.string_of_int (Z.to_int n).

(** [arr.includes(x)] *)
Definition js_includes {A} `{EqDecision A} (arr : list A) (x : A) : bool :=
  bool_decide (x ∈ arr).

(** *** binary64 arithmetic *)

(** [2^k] as a fraction, for an exponent of either sign. *)
Definition pow2_num (k : Z) : Z := if 0 <=? k then 2 ^ k else 1.
Definition pow2_den (k : Z) : Z := if 0 <=? k then 1 else 2 ^ (- k).

(** The integer nearest to [a / b] for [b > 0], ties to the even one. *)
Definition round_half_even (a b : Z) : Z :=
  let fl := a / b in
  match 2 * (a mod b) ?= b with
  | Lt => fl
  | Gt => fl + 1
  | Eq => if Z.even fl then fl else fl + 1
  end.

(** The binary64 number nearest to the positive rational [n / d]: with
    [2^e <= n / d < 2^(e+1)], the quotient is rounded to a multiple of
    [2^(e - 52)].  Overflow and subnormal numbers are left out: the
    operands of this development lie between 1 and 2^1023 in
    magnitude. *)
Definition binary64_pos (n d : Z) : Q :=
  let e0 := Z.log2 n - Z.log2 d in
  let e := if n * pow2_den e0 <? d * pow2_num e0 then e0 - 1 else e0 in
  let s := 52 - e in
  let r := round_half_even (n * pow2_num s) (d * pow2_den s) in
  Qmake (r * pow2_num (- s)) (Z.to_pos (pow2_den (- s))).

(** Rounding of a real result to binary64, round to nearest, ties to
    even. *)
Definition binary64 (q : Q) : Q :=
  match Qnum q with
  | 0 => 0%Q
  | Zpos _ => binary64_pos (Qnum q) (Zpos (Qden q))
  | Zneg _ => Qopp (binary64_pos (- Qnum q) (Zpos (Qden q)))
  end.

(** ** Data model (the [result] prop of [PreviewPanel.vue]) *)

Module FilterMessage.
Record t : Type := {
  id : Z;
  senderName : string;
  senderPlatformId : string;
  senderAliases : list string;
  senderAvatar : option string;
  content : string;
  timestamp : Z;
  type : Z;
  replyToMessageId : option string;
  replyToContent : option string;
  replyToSenderName : option string;
  isHit : bool
}.
End FilterMessage.

(** The shape [MessageList] consumes: a [FilterMessage] without [isHit]. *)
Module ChatRecordMessage.
Record t : Type := {
  id : Z;
  senderName : string;
  senderPlatformId : string;
  senderAliases : list string;
  senderAvatar : option string;
  content : string;
  timestamp : Z;
  type : Z;
  replyToMessageId : option string;
  replyToContent : option string;
  replyToSenderName : option string
}.
End ChatRecordMessage.

Record Block : Type := {
  startTs : Z;
  endTs : Z;
  messages : list FilterMessage.t;
  hitCount : Z
}.

Record Stats : Type := {
  totalMessages : Z;
  hitMessages : Z;
  totalChars : Z
}.

Record FilterResult : Type := {
  blocks : list Block;
  stats : Stats
}.

(** ** [FilterTab.vue]: token estimate *)

Module FilterTab.

Inductive TokenStatus : Type := green | yellow | red.

(** [Math.ceil(filterResult.value.stats.totalChars * 1.5)], and [0]
    when there is no result.  The product is a binary64 number. *)
Definition estimatedTokens (filterResult : option FilterResult) : Z :=
  match filterResult with
  | None => 0
  | Some r => Qceiling (binary64 (inject_Z (totalChars (stats r)) * (3 # 2)))
  end.

Definition tokenStatus (filterResult : option FilterResult) : TokenStatus :=
  let tokens := estimatedTokens filterResult in
  if tokens <? 50000 then green
  else if tokens <? 100000 then yellow
  else red.

(** *** Running a filter *)

Inductive FilterMode : Type := condition | session.

Module TimeRange.
Record t : Type := { start : Z; end_ : Z }.
End TimeRange.

Module TimeFilter.
Record t : Type := { startTs : Z; endTs : Z }.
End TimeFilter.

Record ConditionFilter : Type := {
  keywords : list string;
  timeRange : option TimeRange.t;
  senderIds : list Z;
  contextSize : Z
}.

(** A call of the data service that has not settled yet.  An optional
    argument is [None] when the script passes [undefined]. *)
Inductive Request : Type :=
  | filterMessagesWithContext
      (sessionId : string) (keywords : option (list string))
      (timeFilter : option TimeFilter.t) (senderIds : option (list Z))
      (contextSize : Z)
  | getMultipleSessionsMessages (sessionId : string) (sessionIds : list Z).

Record State : Type := {
  currentSessionId : option string;      (* sessionStore.currentSessionId *)
  filterMode : FilterMode;
  conditionFilter : ConditionFilter;
  selectedSessionIds : list Z;
  filterResult : option FilterResult;
  isFiltering : bool;
  showHistory : bool;
  showAnalysisModal : bool;
  inFlight : list Request                 (* awaited calls, oldest first *)
}.

Definition set_filterMode (m : FilterMode) (s : State) : State :=
  {| currentSessionId := currentSessionId s; filterMode := m;
     conditionFilter := conditionFilter s;
     selectedSessionIds := selectedSessionIds s;
     filterResult := filterResult s; isFiltering := isFiltering s;
     showHistory := showHistory s;
     showAnalysisModal := showAnalysisModal s; inFlight := inFlight s |}.

Definition set_conditionFilter (c : ConditionFilter) (s : State) : State :=
  {| currentSessionId := currentSessionId s; filterMode := filterMode s;
     conditionFilter := c;
     selectedSessionIds := selectedSessionIds s;
     filterResult := filterResult s; isFiltering := isFiltering s;
     showHistory := showHistory s;
     showAnalysisModal := showAnalysisModal s; inFlight := inFlight s |}.

Definition set_selectedSessionIds (ids : list Z) (s : State) : State :=
  {| currentSessionId := currentSessionId s; filterMode := filterMode s;
     conditionFilter := conditionFilter s;
     selectedSessionIds := ids;
     filterResult := filterResult s; isFiltering := isFiltering s;
     showHistory := showHistory s;
     showAnalysisModal := showAnalysisModal s; inFlight := inFlight s |}.

Definition set_filterResult (r : option FilterResult) (s : State) : State :=
  {| currentSessionId := currentSessionId s; filterMode := filterMode s;
     conditionFilter := conditionFilter s;
     selectedSessionIds := selectedSessionIds s;
     filterResult := r; isFiltering := isFiltering s;
     showHistory := showHistory s;
     showAnalysisModal := showAnalysisModal s; inFlight := inFlight s |}.

Definition set_isFiltering (b : bool) (s : State) : State :=
  {| currentSessionId := currentSessionId s; filterMode := filterMode s;
     conditionFilter := conditionFilter s;
     selectedSessionIds := selectedSessionIds s;
     filterResult := filterResult s; isFiltering := b;
     showHistory := showHistory s;
     showAnalysisModal := showAnalysisModal s; inFlight := inFlight s |}.

Definition set_showHistory (b : bool) (s : State) : State :=
  {| currentSessionId := currentSessionId s; filterMode := filterMode s;
     conditionFilter := conditionFilter s;
     selectedSessionIds := selectedSessionIds s;
     filterResult := filterResult s; isFiltering := isFiltering s;
     showHistory := b;
     showAnalysisModal := showAnalysisModal s; inFlight := inFlight s |}.

Definition set_showAnalysisModal (b : bool) (s : State) : State :=
  {| currentSessionId := currentSessionId s; filterMode := filterMode s;
     conditionFilter := conditionFilter s;
     selectedSessionIds := selectedSessionIds s;
     filterResult := filterResult s; isFiltering := isFiltering s;
     showHistory := showHistory s;
     showAnalysisModal := b; inFlight := inFlight s |}.

Definition set_inFlight (l : list Request) (s : State) : State :=
  {| currentSessionId := currentSessionId s; filterMode := filterMode s;
     conditionFilter := conditionFilter s;
     selectedSessionIds := selectedSessionIds s;
     filterResult := filterResult s; isFiltering := isFiltering s;
     showHistory := showHistory s;
     showAnalysisModal := showAnalysisModal s; inFlight := l |}.

Definition set_currentSessionId (id : option string) (s : State) : State :=
  {| currentSessionId := id; filterMode := filterMode s;
     conditionFilter := conditionFilter s;
     selectedSessionIds := selectedSessionIds s;
     filterResult := filterResult s; isFiltering := isFiltering s;
     showHistory := showHistory s;
     showAnalysisModal := showAnalysisModal s; inFlight := inFlight s |}.

(** The state right after [setup]. *)
Definition init (sessionId : option string) : State :=
  {| currentSessionId := sessionId; filterMode := condition;
     conditionFilter :=
       {| keywords := []; timeRange := None; senderIds := [];
          contextSize := 10 |};
     selectedSessionIds := [];
     filterResult := None; isFiltering := false;
     showHistory := false; showAnalysisModal := false; inFlight := [] |}.

Definition canExecuteFilter (s : State) : bool :=
  if isFiltering s then false
  else
    match filterMode s with
    | condition =>
        (0 <? js_length (keywords (conditionFilter s)))
        || (0 <? js_length (senderIds (conditionFilter s)))
        || match timeRange (conditionFilter s) with
           | Some _ => true
           | None => false
           end
    | session => 0 <? js_length (selectedSessionIds s)
    end.

(** [executeFilter()] up to its [await]: without a session id nothing
    happens; otherwise the flag is set, the result is cleared and the
    call of the mode is issued.  In session mode an empty selection
    returns at once, through [finally]. *)
Definition executeFilter (s : State) : State :=
  match currentSessionId s with
  | None => s
  | Some sessionId =>
      if bool_decide (sessionId = EmptyString) then s
      else
        let s := set_isFiltering true s in
        let s := set_filterResult None s in
        match filterMode s with
        | condition =>
            let rawFilter := conditionFilter s in
            let keywords :=
              if 0 <? js_length (keywords rawFilter)
              then Some (keywords rawFilter) else None in
            let timeFilter :=
              match timeRange rawFilter with
              | Some range =>
                  Some {| TimeFilter.startTs := TimeRange.start range;
                          TimeFilter.endTs := TimeRange.end_ range |}
              | None => None
              end in
            let senderIds :=
              if 0 <? js_length (senderIds rawFilter)
              then Some (senderIds rawFilter) else None in
            let contextSize := contextSize rawFilter in
            set_inFlight
              (inFlight s
               ++ [filterMessagesWithContext sessionId keywords timeFilter
                     senderIds contextSize]) s
        | session =>
            if js_length (selectedSessionIds s) =? 0
            then set_isFiltering false s
            else
              set_inFlight
                (inFlight s
                 ++ [getMultipleSessionsMessages sessionId
                       (selectedSessionIds s)]) s
        end
  end.

(** The rest of [executeFilter()] once the oldest call settles: a
    fulfilled call stores its result, a rejected one is logged, and
    [finally] clears the flag. *)
Definition settle (outcome : option FilterResult) (s : State) : State :=
  match inFlight s with
  | [] => s
  | _ :: rest =>
      let s := set_inFlight rest s in
      let s :=
        match outcome with
        | Some result => set_filterResult (Some result) s
        | None => s
        end in
      set_isFiltering false s
  end.

Definition openLocalAnalysis (s : State) : State :=
  match filterResult s with
  | None => s
  | Some r =>
      if js_length (blocks r) =? 0 then s
      else set_showAnalysisModal true s
  end.

(** The callback of [watch(filterMode, ...)]. *)
Definition onFilterModeChange (s : State) : State :=
  set_filterResult None s.

Definition loadHistoryCondition
    (mode : FilterMode) (historyFilter : option ConditionFilter)
    (historyIds : option (list Z)) (s : State) : State :=
  let s := set_filterMode mode s in
  let s :=
    match mode, historyFilter, historyIds with
    | condition, Some c, _ => set_conditionFilter c s
    | session, _, Some ids => set_selectedSessionIds ids s
    | _, _, _ => s
    end in
  set_showHistory false s.

(** One task of the event loop, as seen by the tab. *)
Inductive Event : Type :=
  | ClickExecute                             (* the execute button *)
  | Settled (outcome : option FilterResult)  (* the awaited call settles *)
  | ClickMode (mode : FilterMode)            (* a mode button *)
  | LoadHistory (mode : FilterMode) (historyFilter : option ConditionFilter)
      (historyIds : option (list Z))         (* @load of the history dialog *)
  | ConditionModel (c : ConditionFilter)     (* v-model of ConditionPanel *)
  | SelectedIdsModel (ids : list Z)          (* v-model of SessionPanel *)
  | ClickLocalAnalysis
  | SessionStore (id : option string).       (* the store changes session *)

Definition mode_eqb (a b : FilterMode) : bool :=
  match a, b with
  | condition, condition | session, session => true
  | _, _ => false
  end.

(** The execute button is disabled unless [canExecuteFilter]; the
    local analysis button is rendered for a result with blocks only,
    which [openLocalAnalysis] checks again. *)
Definition handle (e : Event) (s : State) : State :=
  match e with
  | ClickExecute => if canExecuteFilter s then executeFilter s else s
  | Settled outcome => settle outcome s
  | ClickMode mode => set_filterMode mode s
  | LoadHistory mode historyFilter historyIds =>
      loadHistoryCondition mode historyFilter historyIds s
  | ConditionModel c => set_conditionFilter c s
  | SelectedIdsModel ids => set_selectedSessionIds ids s
  | ClickLocalAnalysis => openLocalAnalysis s
  | SessionStore id => set_currentSessionId id s
  end.

Definition step (s : State) (e : Event) : State :=
  let s' := handle e s in
  if mode_eqb (filterMode s') (filterMode s) then s'
  else onFilterModeChange s'.

Definition run (es : list Event) (s : State) : State :=
  fold_left step es s.

End FilterTab.

(** ** [PreviewPanel.vue]: state *)

Module Preview.

(** The reactive state of one mounted panel, the two props the script
    reads, the timers it has started and the commands it has sent to
    its two child views. *)
Record State : Type := {
  (* props *)
  result : option FilterResult;
  isLoading : bool;
  (* refs and the plain [let] flag *)
  selectedBlockIndex : Z;
  isBlockSwitching : bool;
  pendingScrollToMessageId : option Z;
  (* pending [setTimeout(..., 300)] callbacks of [goToNextBlock] *)
  unlockTimers : nat;
  (* pending [setTimeout(..., 100)] callbacks of the watcher, oldest
     first, each with the [messageId] its closure captured *)
  scrollTimers : list Z;
  (* [blockVirtualizer.scrollToIndex(index, center)] calls, oldest first *)
  blockListScrolls : list Z;
  (* [messageListRef.scrollToMessage(id)] calls, oldest first *)
  messageListScrolls : list Z
}.

Definition set_result (r : option FilterResult) (s : State) : State :=
  {| result := r; isLoading := isLoading s;
     selectedBlockIndex := selectedBlockIndex s;
     isBlockSwitching := isBlockSwitching s;
     pendingScrollToMessageId := pendingScrollToMessageId s;
     unlockTimers := unlockTimers s; scrollTimers := scrollTimers s;
     blockListScrolls := blockListScrolls s;
     messageListScrolls := messageListScrolls s |}.

Definition set_isLoading (b : bool) (s : State) : State :=
  {| result := result s; isLoading := b;
     selectedBlockIndex := selectedBlockIndex s;
     isBlockSwitching := isBlockSwitching s;
     pendingScrollToMessageId := pendingScrollToMessageId s;
     unlockTimers := unlockTimers s; scrollTimers := scrollTimers s;
     blockListScrolls := blockListScrolls s;
     messageListScrolls := messageListScrolls s |}.

Definition set_selectedBlockIndex (i : Z) (s : State) : State :=
  {| result := result s; isLoading := isLoading s;
     selectedBlockIndex := i;
     isBlockSwitching := isBlockSwitching s;
     pendingScrollToMessageId := pendingScrollToMessageId s;
     unlockTimers := unlockTimers s; scrollTimers := scrollTimers s;
     blockListScrolls := blockListScrolls s;
     messageListScrolls := messageListScrolls s |}.

Definition set_isBlockSwitching (b : bool) (s : State) : State :=
  {| result := result s; isLoading := isLoading s;
     selectedBlockIndex := selectedBlockIndex s;
     isBlockSwitching := b;
     pendingScrollToMessageId := pendingScrollToMessageId s;
     unlockTimers := unlockTimers s; scrollTimers := scrollTimers s;
     blockListScrolls := blockListScrolls s;
     messageListScrolls := messageListScrolls s |}.

Definition set_pendingScrollToMessageId (m : option Z) (s : State) : State :=
  {| result := result s; isLoading := isLoading s;
     selectedBlockIndex := selectedBlockIndex s;
     isBlockSwitching := isBlockSwitching s;
     pendingScrollToMessageId := m;
     unlockTimers := unlockTimers s; scrollTimers := scrollTimers s;
     blockListScrolls := blockListScrolls s;
     messageListScrolls := messageListScrolls s |}.

Definition set_unlockTimers (n : nat) (s : State) : State :=
  {| result := result s; isLoading := isLoading s;
     selectedBlockIndex := selectedBlockIndex s;
     isBlockSwitching := isBlockSwitching s;
     pendingScrollToMessageId := pendingScrollToMessageId s;
     unlockTimers := n; scrollTimers := scrollTimers s;
     blockListScrolls := blockListScrolls s;
     messageListScrolls := messageListScrolls s |}.

Definition set_scrollTimers (l : list Z) (s : State) : State :=
  {| result := result s; isLoading := isLoading s;
     selectedBlockIndex := selectedBlockIndex s;
     isBlockSwitching := isBlockSwitching s;
     pendingScrollToMessageId := pendingScrollToMessageId s;
     unlockTimers := unlockTimers s; scrollTimers := l;
     blockListScrolls := blockListScrolls s;
     messageListScrolls := messageListScrolls s |}.

Definition set_blockListScrolls (l : list Z) (s : State) : State :=
  {| result := result s; isLoading := isLoading s;
     selectedBlockIndex := selectedBlockIndex s;
     isBlockSwitching := isBlockSwitching s;
     pendingScrollToMessageId := pendingScrollToMessageId s;
     unlockTimers := unlockTimers s; scrollTimers := scrollTimers s;
     blockListScrolls := l;
     messageListScrolls := messageListScrolls s |}.

Definition set_messageListScrolls (l : list Z) (s : State) : State :=
  {| result := result s; isLoading := isLoading s;
     selectedBlockIndex := selectedBlockIndex s;
     isBlockSwitching := isBlockSwitching s;
     pendingScrollToMessageId := pendingScrollToMessageId s;
     unlockTimers := unlockTimers s; scrollTimers := scrollTimers s;
     blockListScrolls := blockListScrolls s;
     messageListScrolls := l |}.

(** The state right after [setup] runs with the given props. *)
Definition mount (r : option FilterResult) (loading : bool) : State :=
  {| result := r; isLoading := loading;
     selectedBlockIndex := 0;
     isBlockSwitching := false;
     pendingScrollToMessageId := None;
     unlockTimers := 0%nat; scrollTimers := [];
     blockListScrolls := []; messageListScrolls := [] |}.

(** ** Result projection *)

(** [getBlockAtReversedIndex]: [null] without a result, otherwise
    [blocks[blocks.length - 1 - index]]. *)
Definition getBlockAtReversedIndex (result : option FilterResult) (index : Z)
  : jsref Block :=
  match result with
  | None => null
  | Some r =>
      let originalIndex := js_length (blocks r) - 1 - index in
      js_index (blocks r) originalIndex
  end.

(** [props.result?.blocks.length ?? 0] *)
Definition blockCount (s : State) : Z :=
  match result s with
  | Some r => js_length (blocks r)
  | None => 0
  end.

(** The object literal built for each message in [currentBlockMessages]. *)
Definition toChatRecordMessage (msg : FilterMessage.t) : ChatRecordMessage.t :=
  {| ChatRecordMessage.id := FilterMessage.id msg;
     ChatRecordMessage.senderName := FilterMessage.senderName msg;
     ChatRecordMessage.senderPlatformId := FilterMessage.senderPlatformId msg;
     ChatRecordMessage.senderAliases := FilterMessage.senderAliases msg;
     ChatRecordMessage.senderAvatar := FilterMessage.senderAvatar msg;
     ChatRecordMessage.content := FilterMessage.content msg;
     ChatRecordMessage.timestamp := FilterMessage.timestamp msg;
     ChatRecordMessage.type := FilterMessage.type msg;
     ChatRecordMessage.replyToMessageId := FilterMessage.replyToMessageId msg;
     ChatRecordMessage.replyToContent := FilterMessage.replyToContent msg;
     ChatRecordMessage.replyToSenderName := FilterMessage.replyToSenderName msg |}.

Definition currentBlockMessages (s : State) : list ChatRecordMessage.t :=
  if blockCount s =? 0 then []
  else
    match getBlockAtReversedIndex (result s) (selectedBlockIndex s) with
    | ref block => map toChatRecordMessage (messages block)
    | _ => []
    end.

Definition hitMessageIds (s : State) : list Z :=
  if blockCount s =? 0 then []
  else
    match getBlockAtReversedIndex (result s) (selectedBlockIndex s) with
    | ref block =>
        map FilterMessage.id (List.filter FilterMessage.isHit (messages block))
    | _ => []
    end.

(** [messageListRef.value] is set exactly when the template renders
    [MessageList]: not loading, a result with blocks, and
    [currentBlockMessages.length > 0]. *)
Definition messageListMounted (s : State) : bool :=
  negb (isLoading s)
  && match result s with
     | Some r => negb (js_length (blocks r) =? 0)
     | None => false
     end
  && (0 <? js_length (currentBlockMessages s)).

(** ** Handlers *)

(** [selectBlock(index)]: a click on row [index] of the index pane. *)
Definition selectBlock (index : Z) (s : State) : State :=
  let s := set_selectedBlockIndex index s in
  match getBlockAtReversedIndex (result s) index with
  | ref block =>
      match List.find FilterMessage.isHit (messages block) with
      | Some firstHitMessage =>
          set_pendingScrollToMessageId (Some (FilterMessage.id firstHitMessage)) s
      | None => s
      end
  | _ => s
  end.

(** [scrollToBlockInList(index)] *)
Definition scrollToBlockInList (index : Z) (s : State) : State :=
  set_blockListScrolls (blockListScrolls s ++ [index]) s.

(** [goToNextBlock()]: the message pane reached its bottom edge. *)
Definition goToNextBlock (s : State) : State :=
  if isBlockSwitching s then s
  else if blockCount s =? 0 then s
  else if selectedBlockIndex s <? blockCount s - 1 then
    let s := set_isBlockSwitching true s in
    let s := set_selectedBlockIndex (selectedBlockIndex s + 1) s in
    let s := scrollToBlockInList (selectedBlockIndex s) s in
    set_unlockTimers (S (unlockTimers s)) s
  else s.

(** [goToPrevBlock()]: disabled, the body is empty. *)
Definition goToPrevBlock (s : State) : State := s.

(** The callback of [watch(() => props.result, ...)]. *)
Definition onResultChange (s : State) : State :=
  let s := set_selectedBlockIndex 0 s in
  set_pendingScrollToMessageId None s.

(** The callback of [watch(pendingScrollToMessageId, ...)]: for a
    non-null id it awaits [nextTick()] and then starts the 100 ms
    timer; both happen before the next task of the event loop. *)
Definition onPendingScrollChange (messageId : option Z) (s : State) : State :=
  match messageId with
  | Some messageId => set_scrollTimers (scrollTimers s ++ [messageId]) s
  | None => s
  end.

(** The 100 ms timer callback, with the [messageId] of its closure:
    [messageListRef.value?.scrollToMessage(messageId)] and then
    [pendingScrollToMessageId.value = null]. *)
Definition scrollTimerCallback (messageId : Z) (s : State) : State :=
  let s :=
    if messageListMounted s
    then set_messageListScrolls (messageListScrolls s ++ [messageId]) s
    else s in
  set_pendingScrollToMessageId None s.

(** The 300 ms timer callback of [goToNextBlock]. *)
Definition unlockTimerCallback (s : State) : State :=
  set_isBlockSwitching false s.

(** ** Event loop *)

(** One task of the event loop, as seen by the panel. *)
Inductive Event : Type :=
  | Click (index : Z)                        (* @click on an index row *)
  | ReachBottom                              (* @reach-bottom *)
  | ReachTop                                 (* @reach-top *)
  | ResultProp (r : option FilterResult)     (* parent assigns [filterResult] *)
  | LoadingProp (b : bool)                   (* parent assigns [isFiltering] *)
  | ScrollTimeout                            (* oldest 100 ms timer expires *)
  | UnlockTimeout.                           (* a 300 ms timer expires *)

Definition handle (e : Event) (s : State) : State :=
  match e with
  | Click index => selectBlock index s
  | ReachBottom => goToNextBlock s
  | ReachTop => goToPrevBlock s
  | ResultProp r => set_result r s
  | LoadingProp b => set_isLoading b s
  | ScrollTimeout =>
      match scrollTimers s with
      | messageId :: rest =>
          scrollTimerCallback messageId (set_scrollTimers rest s)
      | [] => s
      end
  | UnlockTimeout =>
      match unlockTimers s with
      | S n => unlockTimerCallback (set_unlockTimers n s)
      | O => s
      end
  end.

(** Whether a task changed [props.result].  Every result the parent
    assigns is a fresh object, so only [null] after [null] is no
    change. *)
Definition resultChanged (e : Event) (old : State) : bool :=
  match e with
  | ResultProp r =>
      match result old, r with
      | None, None => false
      | _, _ => true
      end
  | _ => false
  end.

(** The watcher flush after a task: the [result] watcher was created
    first and runs first; the [pendingScrollToMessageId] watcher runs
    when the ref differs from the value it last saw, which is the
    value before the task. *)
Definition flushWatchers (e : Event) (old s : State) : State :=
  let s := if resultChanged e old then onResultChange s else s in
  if decide (pendingScrollToMessageId s = pendingScrollToMessageId old)
  then s
  else onPendingScrollChange (pendingScrollToMessageId s) s.

Definition step (s : State) (e : Event) : State :=
  flushWatchers e s (handle e s).

Definition run (es : list Event) (s : State) : State :=
  fold_left step es s.

(** The block shown in the message pane. *)
Definition activeBlock (s : State) : jsref Block :=
  getBlockAtReversedIndex (result s) (selectedBlockIndex s).

(** [getBlockAtReversedIndex(i)?.startTs ?? 0], as the index row shows it. *)
Definition startTsOr0 (b : jsref Block) : Z :=
  match b with
  | ref block => startTs block
  | _ => 0
  end.

(** The navigation machine is [Idle] when the flag is clear and
    [Advancing] when it is set. *)
Definition Idle (s : State) : Prop := isBlockSwitching s = false.
Definition Advancing (s : State) : Prop := isBlockSwitching s = true.

(** ** Row labels *)

(** [formatDuration(startTs, endTs)] of the index rows.  [Math.floor]
    of a quotient by a positive constant is [/]; [%] is the truncated
    remainder. *)
Definition formatDuration (startTs endTs : Z) : string :=
  let diff := endTs - startTs in
  if diff <? 60 then js_toString diff +:+ "秒"
  else if diff <? 3600 then js_toString (diff / 60) +:+ "分钟"
  else js_toString (diff / 3600) +:+ "h"
       +:+ js_toString (Z.rem diff 3600 / 60) +:+ "m".

(** [shouldShowYear].  [getFullYear ms] stands for
    [new Date(ms).getFullYear()], which depends on the time zone of the
    host. *)
Definition shouldShowYear (getFullYear : Z -> Z) (s : State) : bool :=
  match result s with
  | None => false
  | Some r =>
      match blocks r with
      | [] => false
      | first :: _ =>
          let firstYear := getFullYear (startTs first * 1000) in
          let lastYear :=
            getFullYear (endTs (List.last (blocks r) first) * 1000) in
          negb (firstYear =? lastYear)
      end
  end.

(** ** Tasks the rendered page can produce *)

(** The index pane renders a row, and so a click handler, only for the
    positions [0 .. blockCount - 1]. *)
Definition clickable (s : State) (e : Event) : bool :=
  match e with
  | Click index => (0 <=? index) && (index <? blockCount s)
  | _ => true
  end.

Fixpoint wellFormed (es : list Event) (s : State) : bool :=
  match es with
  | [] => true
  | e :: es => clickable s e && wellFormed es (step s e)
  end.

(** One debounce window: [n] reach-bottom triggers and then the expiry
    of the 300 ms timer. *)
Definition debounceWindow (n : nat) : list Event :=
  repeat ReachBottom n ++ [UnlockTimeout].

End Preview.

(** ** [SessionPanel.vue]: selection set *)

Module SessionPanel.

Record ChatSession : Type := {
  id : Z;
  startTs : Z;
  endTs : Z;
  messageCount : Z;
  firstMessageId : Z
}.

(** A row of the flattened list.  The [type] discriminant of the
    source decides which optional fields are present. *)
Inductive ListItem : Type :=
  | DateItem (date : string) (sessionCount : Z)       (* type: 'date' *)
  | SessionItem (session : ChatSession) (date : string). (* type: 'session' *)

(** [flatItems] is computed from the loaded sessions with the locale's
    date format; the panel state keeps its value.  [selectedSet] is the
    [Set<number>]; [selectedIds] is the array model written back after
    each mutation, whose order is not significant. *)
Record State : Type := {
  flatItems : list ListItem;
  selectedSet : gset Z;
  selectedIds : list Z
}.

Definition isSelected (id : Z) (s : State) : bool :=
  bool_decide (id ∈ selectedSet s).

Definition toggleSession (id : Z) (s : State) : State :=
  let newSet := selectedSet s in
  let newSet :=
    if bool_decide (id ∈ newSet) then newSet ∖ {[id]} else newSet ∪ {[id]} in
  {| flatItems := flatItems s;
     selectedSet := newSet;
     selectedIds := elements newSet |}.

Definition isSessionOf (date : string) (item : ListItem) : bool :=
  match item with
  | SessionItem _ d => bool_decide (d = date)
  | DateItem _ _ => false
  end.

Definition sessionId (item : ListItem) : option Z :=
  match item with
  | SessionItem session _ => Some (id session)
  | DateItem _ _ => None
  end.

(** [flatItems.filter(type === 'session' && date === date).map(session!.id)] *)
Definition getSessionIdsForDate (date : string) (s : State) : list Z :=
  omap sessionId (List.filter (isSessionOf date) (flatItems s)).

(** [selectDate(date)]: removes the whole group when every id of it is
    selected, adds the whole group otherwise. *)
Definition selectDate (date : string) (s : State) : State :=
  let sessionIds := getSessionIdsForDate date s in
  let allSelected :=
    forallb (fun id => bool_decide (id ∈ selectedSet s)) sessionIds in
  let newSet := selectedSet s in
  let newSet :=
    if allSelected
    then fold_left (fun acc id => acc ∖ {[id]}) sessionIds newSet
    else fold_left (fun acc id => acc ∪ {[id]}) sessionIds newSet in
  {| flatItems := flatItems s;
     selectedSet := newSet;
     selectedIds := elements newSet |}.

Definition isDateFullySelected (date : string) (s : State) : bool :=
  (0 <? js_length (getSessionIdsForDate date s))
  && forallb (fun id => bool_decide (id ∈ selectedSet s))
       (getSessionIdsForDate date s).

(** The callback of [watch(selectedIds, ..., { immediate: true })]:
    the array bound by the parent replaces the set. *)
Definition watchSelectedIds (newIds : list Z) (s : State) : State :=
  {| flatItems := flatItems s;
     selectedSet := list_to_set newIds;
     selectedIds := newIds |}.

(** [formatDuration(startTs, endTs)] of the session rows. *)
Definition formatDuration (startTs endTs : Z) : string :=
  let diff := endTs - startTs in
  if diff <? 60 then js_toString diff +:+ "秒"
  else if diff <? 3600 then js_toString (diff / 60) +:+ "分钟"
  else js_toString (diff / 3600) +:+ "小时"
       +:+ js_toString (Z.rem diff 3600 / 60) +:+ "分钟".

(** *** The flattened list *)

Section FlatItems.

(** [toLocaleDateString ms] stands for
    [new Date(ms).toLocaleDateString()]; [sortedKeys groups] stands for
    [Object.keys(groups).sort(...)], whose comparator parses the keys
    back into dates.  The keys of [groups] are date strings, none of
    which names an inherited property of a plain object. *)
Variable toLocaleDateString : Z -> string.
Variable sortedKeys : gmap string (list ChatSession) -> list string.

Definition dateOf (session : ChatSession) : string :=
  toLocaleDateString (startTs session * 1000).

(** The loaded sessions that fall on a date, in loaded order. *)
Definition sessionsOn (date : string) (sessions : list ChatSession)
  : list ChatSession :=
  List.filter (fun session => bool_decide (dateOf session = date)) sessions.

(** The grouping loop: each session is pushed on the array of its
    date, which is created on first use. *)
Definition groupByDate (sessions : list ChatSession)
  : gmap string (list ChatSession) :=
  fold_left
    (fun groups session =>
       let date := dateOf session in
       <[date := default [] (groups !! date) ++ [session]]> groups)
    sessions ∅.

(** The computed [flatItems]: for each date a header row and then the
    rows of its sessions. *)
Definition computeFlatItems (sessions : list ChatSession) : list ListItem :=
  let groups := groupByDate sessions in
  let sortedDates := sortedKeys groups in
  flat_map
    (fun date =>
       let group := default [] (groups !! date) in
       DateItem date (js_length group)
       :: map (fun session => SessionItem session date) group)
    sortedDates.

End FlatItems.

End SessionPanel.

(** ** [ConditionPanel.vue]: keywords and senders *)

Module ConditionPanel.

(** The two bound arrays and the text field the handlers below use. *)
Record State : Type := {
  keywords : list string;
  senderIds : list Z;
  keywordInput : string
}.

Section Keywords.

(** [trim str] stands for [str.trim()]. *)
Variable trim : string -> string.

Definition addKeyword (s : State) : State :=
  let kw := trim (keywordInput s) in
  if negb (bool_decide (kw = EmptyString))
     && negb (js_includes (keywords s) kw)
  then {| keywords := keywords s ++ [kw];
          senderIds := senderIds s;
          keywordInput := EmptyString |}
  else s.

(** [handleKeywordKeydown(e)], with [key] for [e.key]. *)
Definition handleKeywordKeydown (key : string) (s : State) : State :=
  if bool_decide (key = "Enter") then addKeyword s else s.

End Keywords.

Definition removeKeyword (kw : string) (s : State) : State :=
  {| keywords :=
       List.filter (fun k => negb (bool_decide (k = kw))) (keywords s);
     senderIds := senderIds s;
     keywordInput := keywordInput s |}.

Definition toggleMember (memberId : Z) (s : State) : State :=
  if js_includes (senderIds s) memberId
  then {| keywords := keywords s;
          senderIds :=
            List.filter (fun id => negb (bool_decide (id = memberId)))
              (senderIds s);
          keywordInput := keywordInput s |}
  else {| keywords := keywords s;
          senderIds := senderIds s ++ [memberId];
          keywordInput := keywordInput s |}.

End ConditionPanel.

(** ** The updater of the main process *)

Module Updater.

(** A JavaScript number, as far as [>] and [===] can tell: a finite
    value is a rational. *)
Inductive jsnumber : Type :=
  | NaN
  | NegInfinity
  | Finite (q : Q)
  | PosInfinity.

(** [a > b] *)
Definition js_gt (a b : jsnumber) : bool :=
  match a, b with
  | NaN, _ | _, NaN => false
  | PosInfinity, PosInfinity => false
  | PosInfinity, _ => true
  | _, PosInfinity => false
  | NegInfinity, _ => false
  | Finite _, NegInfinity => true
  | Finite x, Finite y =>
      match (x ?= y)%Q with
      | Gt => true
      | _ => false
      end
  end.

(** [a === b] on numbers *)
Definition js_strictEq (a b : jsnumber) : bool :=
  match a, b with
  | PosInfinity, PosInfinity | NegInfinity, NegInfinity => true
  | Finite x, Finite y =>
      match (x ?= y)%Q with
      | Eq => true
      | _ => false
      end
  | _, _ => false
  end.

(** [str.split('.')] *)
Fixpoint split_dots_from (current : string) (str : string) : list string :=
  match str with
  | EmptyString => [current]
  | String c rest =>
      if Ascii.eqb c "."%char
      then current :: split_dots_from EmptyString rest
      else split_dots_from (current +:+ String c EmptyString) rest
  end.

Definition split_dots (str : string) : list string :=
  split_dots_from EmptyString str.

Section Versions.

(** [Number str] stands for the conversion [Number(str)]. *)
Variable Number : string -> jsnumber.

(** An array element bound by destructuring, as a comparison sees it:
    a missing element is [undefined], which [>] converts to [NaN]. *)
Definition element (arr : list jsnumber) (i : nat) : jsnumber :=
  default NaN (arr !! i).

(** [isMajorOrMinorUpdate(current, latest)].  On strings the body of
    [try] cannot throw. *)
Definition isMajorOrMinorUpdate (current latest : string) : bool :=
  let c := map Number (split_dots current) in
  let l := map Number (split_dots latest) in
  let cMajor := element c 0 in
  let cMinor := element c 1 in
  let lMajor := element l 0 in
  let lMinor := element l 1 in
  if js_gt lMajor cMajor then true
  else if js_strictEq lMajor cMajor && js_gt lMinor cMinor then true
  else false.

(** The module variables, the flag of [checkUpdate] and what the
    handlers have shown so far. *)
Record State : Type := {
  isFirstShow : bool;
  isManualCheck : bool;
  showUpdateMessageBox : bool;
  updateDialogs : list string;   (* versions offered in a dialog, oldest first *)
  latestToasts : nat             (* 'show-message' sent to the window *)
}.

Definition start : State :=
  {| isFirstShow := true; isManualCheck := false;
     showUpdateMessageBox := false; updateDialogs := []; latestToasts := 0 |}.

Definition setManualCheck (value : bool) (s : State) : State :=
  {| isFirstShow := isFirstShow s; isManualCheck := value;
     showUpdateMessageBox := showUpdateMessageBox s;
     updateDialogs := updateDialogs s; latestToasts := latestToasts s |}.

(** The ['update-available'] handler up to the dialog; [appVersion]
    stands for [app.getVersion()]. *)
Definition onUpdateAvailable (appVersion version : string) (s : State) : State :=
  if showUpdateMessageBox s then s
  else if negb (isManualCheck s)
          && negb (isMajorOrMinorUpdate appVersion version)
  then setManualCheck false s
  else
    {| isFirstShow := isFirstShow s; isManualCheck := false;
       showUpdateMessageBox := true;
       updateDialogs := updateDialogs s ++ [version];
       latestToasts := latestToasts s |}.

(** The [then] callback of the dialog. *)
Definition onDialogClosed (s : State) : State :=
  {| isFirstShow := isFirstShow s; isManualCheck := isManualCheck s;
     showUpdateMessageBox := false;
     updateDialogs := updateDialogs s; latestToasts := latestToasts s |}.

(** The ['update-not-available'] handler. *)
Definition onUpdateNotAvailable (s : State) : State :=
  let s :=
    if isFirstShow s
    then {| isFirstShow := false; isManualCheck := isManualCheck s;
            showUpdateMessageBox := showUpdateMessageBox s;
            updateDialogs := updateDialogs s;
            latestToasts := latestToasts s |}
    else if isManualCheck s
    then {| isFirstShow := isFirstShow s; isManualCheck := isManualCheck s;
            showUpdateMessageBox := showUpdateMessageBox s;
            updateDialogs := updateDialogs s;
            latestToasts := S (latestToasts s) |}
    else s in
  setManualCheck false s.

(** The ['error'] handler. *)
Definition onError (s : State) : State := setManualCheck false s.

(** What reaches the module: a call of the exported [setManualCheck],
    an event of [autoUpdater], or the answer to the dialog. *)
Inductive Event : Type :=
  | SetManualCheck (value : bool)
  | UpdateAvailable (version : string)
  | DialogClosed
  | UpdateNotAvailable
  | UpdateError.

Definition handle (appVersion : string) (s : State) (e : Event) : State :=
  match e with
  | SetManualCheck value => setManualCheck value s
  | UpdateAvailable version => onUpdateAvailable appVersion version s
  | DialogClosed => onDialogClosed s
  | UpdateNotAvailable => onUpdateNotAvailable s
  | UpdateError => onError s
  end.

Definition run (appVersion : string) (es : list Event) (s : State) : State :=
  fold_left (handle appVersion) es s.

End Versions.

End Updater.

(** ** [ImportPresetModal.vue]: groups of remote presets *)

Module ImportPreset.

Section Groups.

(** A remote preset; [chatType p] is [None] when the field is absent. *)
Variable RemotePresetData : Type.
Variable chatType : RemotePresetData -> option string.

Record Group : Type := {
  key : string;
  icon : string;
  iconColor : string;
  titleKey : string;
  presets : list RemotePresetData
}.

(** [p.chatType === name] *)
Definition hasChatType (name : string) (p : RemotePresetData) : bool :=
  match chatType p with
  | Some t => bool_decide (t = name)
  | None => false
  end.

(** [!p.chatType]: absent or the empty string. *)
Definition noChatType (p : RemotePresetData) : bool :=
  match chatType p with
  | Some t => bool_decide (t = EmptyString)
  | None => true
  end.

Definition presetGroups (remotePresets : list RemotePresetData) : list Group :=
  [ {| key := "common";
       icon := "i-heroicons-squares-2x2";
       iconColor := "text-emerald-500";
       titleKey := "importPreset.commonPresets";
       presets :=
         List.filter (fun p => hasChatType "common" p || noChatType p)
           remotePresets |};
    {| key := "group";
       icon := "i-heroicons-chat-bubble-left-right";
       iconColor := "text-violet-500";
       titleKey := "importPreset.groupPresets";
       presets := List.filter (hasChatType "group") remotePresets |};
    {| key := "private";
       icon := "i-heroicons-user";
       iconColor := "text-blue-500";
       titleKey := "importPreset.privatePresets";
       presets := List.filter (hasChatType "private") remotePresets |} ].

(** The chat types one of the three groups accepts. *)
Definition knownChatType (p : RemotePresetData) : bool :=
  noChatType p || hasChatType "common" p || hasChatType "group" p
  || hasChatType "private" p.

End Groups.

End ImportPreset.

(** ** Fixtures *)

Module Fixture.

Definition message (id : Z) (hit : bool) : FilterMessage.t :=
  {| FilterMessage.id := id;
     FilterMessage.senderName := "alice";
     FilterMessage.senderPlatformId := "u1";
     FilterMessage.senderAliases := [];
     FilterMessage.senderAvatar := None;
     FilterMessage.content := "hello";
     FilterMessage.timestamp := 1700000000 + id;
     FilterMessage.type := 0;
     FilterMessage.replyToMessageId := None;
     FilterMessage.replyToContent := None;
     FilterMessage.replyToSenderName := None;
     FilterMessage.isHit := hit |}.

(** Storage order is oldest first. *)
Definition oldest : Block :=
  {| startTs := 1700000020; endTs := 1700000021;
     messages := [message 20 true; message 21 false]; hitCount := 1 |}.
Definition middle : Block :=
  {| startTs := 1700000030; endTs := 1700000031;
     messages := [message 30 false; message 31 false]; hitCount := 0 |}.
Definition newest : Block :=
  {| startTs := 1700000040; endTs := 1700000042;
     messages := [message 40 false; message 41 true; message 42 true];
     hitCount := 2 |}.

Definition threeBlocks : FilterResult :=
  {| blocks := [oldest; middle; newest];
     stats := {| totalMessages := 7; hitMessages := 3; totalChars := 35 |} |}.

(** A later result whose only block shows message 41 as context. *)
Definition rerun : FilterResult :=
  {| blocks := [ {| startTs := 1700000040; endTs := 1700000041;
                    messages := [message 40 true; message 41 false];
                    hitCount := 1 |} ];
     stats := {| totalMessages := 2; hitMessages := 1; totalChars := 10 |} |}.

(** The three blocks with a given character total. *)
Definition withChars (n : Z) : FilterResult :=
  {| blocks := [oldest; middle; newest];
     stats := {| totalMessages := 7; hitMessages := 3; totalChars := n |} |}.

Definition session (id : Z) : SessionPanel.ChatSession :=
  {| SessionPanel.id := id;
     SessionPanel.startTs := 1700000000;
     SessionPanel.endTs := 1700000600;
     SessionPanel.messageCount := 12;
     SessionPanel.firstMessageId := 100 * id |}.

Definition picker (sel : gset Z) : SessionPanel.State :=
  {| SessionPanel.flatItems :=
       [ SessionPanel.DateItem "2024/1/2" 1;
         SessionPanel.SessionItem (session 3) "2024/1/2";
         SessionPanel.DateItem "2024/1/1" 2;
         SessionPanel.SessionItem (session 1) "2024/1/1";
         SessionPanel.SessionItem (session 2) "2024/1/1" ];
     SessionPanel.selectedSet := sel;
     SessionPanel.selectedIds := elements sel |}.

End Fixture.


(** * Properties *)

(** ** Token estimate *)

Section TokenEstimate.
Import FilterTab.

Lemma pow2_nonneg (k : Z) : 0 <= k -> pow2_num k = 2 ^ k /\ pow2_den k = 1.
Proof.
  intros H. unfold pow2_num, pow2_den.
  destruct (Z.leb_spec 0 k); [now split|lia].
Qed.

Lemma pow2_neg (k : Z) : k < 0 -> pow2_num k = 1 /\ pow2_den k = 2 ^ (- k).
Proof.
  intros H. unfold pow2_num, pow2_den.
  destruct (Z.leb_spec 0 k); [lia|now split].
Qed.

Lemma log2_bounds (k : Z) : 0 < k -> 2 ^ Z.log2 k <= k < 2 ^ (Z.log2 k + 1).
Proof.
  intros H. destruct (Z.log2_spec k H) as [Hlo Hhi].
  split; [exact Hlo|]. now rewrite <- Z.add_1_r in Hhi.
Qed.

(** The binary exponent chosen for the half-integer [k / 2] is
    [log2 k - 1]. *)
Lemma binary64_pos_half (k : Z) :
  2 <= k ->
  binary64_pos k 2
  = (let s := 53 - Z.log2 k in
     let r := round_half_even (k * pow2_num s) (2 * pow2_den s) in
     Qmake (r * pow2_num (- s)) (Z.to_pos (pow2_den (- s)))).
Proof.
  intros Hk. unfold binary64_pos. change (Z.log2 2) with 1.
  destruct (log2_bounds k ltac:(lia)) as [Hl Hu].
  set (L := Z.log2 k) in *.
  assert (1 <= L) as HL1.
  { pose proof (Z.log2_nonneg k) as H. fold L in H.
    destruct (Z.eq_dec L 0) as [E|]; [|lia].
    rewrite E in Hu. simpl in Hu. lia. }
  destruct (pow2_nonneg (L - 1) ltac:(lia)) as [-> ->].
  assert (2 * 2 ^ (L - 1) = 2 ^ L) as ->.
  { rewrite <- Z.pow_succ_r by lia. f_equal. lia. }
  destruct (Z.ltb_spec (k * 1) (2 ^ L)) as [|_]; [lia|].
  cbv zeta. replace (52 - (L - 1)) with (53 - L) by lia. reflexivity.
Qed.

(** A half-integer [k / 2] with [k <= 2^53] is a binary64 number. *)
Lemma binary64_pos_exact (k : Z) :
  2 <= k <= 2 ^ 53 -> (binary64_pos k 2 == k # 2)%Q.
Proof.
  intros [Hlo Hhi].
  destruct (Z.eq_dec k (2 ^ 53)) as [->|Hne]; [reflexivity|].
  rewrite binary64_pos_half by exact Hlo. cbv zeta.
  destruct (log2_bounds k ltac:(lia)) as [Hl Hu].
  set (L := Z.log2 k) in *.
  assert (L <= 52) as HL52.
  { destruct (Z_le_gt_dec L 52) as [|G]; [assumption|].
    pose proof (Z.pow_le_mono_r 2 53 L ltac:(lia) ltac:(lia)). lia. }
  set (s := 53 - L).
  assert (1 <= s) as Hs by (subst s; lia).
  destruct (pow2_nonneg s ltac:(lia)) as [-> ->].
  destruct (pow2_neg (- s) ltac:(lia)) as [-> ->].
  rewrite Z.opp_involutive.
  assert (2 ^ s = 2 ^ (s - 1) * 2) as Hs2.
  { rewrite Z.mul_comm, <- Z.pow_succ_r by lia. f_equal. lia. }
  unfold round_half_even.
  replace (k * 2 ^ s) with (k * 2 ^ (s - 1) * 2) by (rewrite Hs2; ring).
  change (2 * 1) with 2.
  rewrite Z.mod_mul, Z.div_mul by lia.
  change (2 * 0 ?= 2) with Lt. cbv iota.
  unfold Qeq. simpl Qnum. simpl Qden.
  rewrite Z2Pos.id by (apply Z.pow_pos_nonneg; lia).
  rewrite Hs2. ring.
Qed.

Lemma round_half_even_ge_floor (a b : Z) : a / b <= round_half_even a b.
Proof.
  unfold round_half_even. destruct (2 * (a mod b) ?= b); try lia.
  destruct (Z.even (a / b)); lia.
Qed.

(** Beyond [2^53] the rounded half-integer is at least [2^52]. *)
Lemma binary64_pos_large (k : Z) :
  2 ^ 53 < k -> (inject_Z (2 ^ 52) <= binary64_pos k 2)%Q.
Proof.
  intros Hk.
  rewrite binary64_pos_half by lia. cbv zeta.
  destruct (log2_bounds k ltac:(lia)) as [Hl Hu].
  set (L := Z.log2 k) in *.
  assert (53 <= L) as HL.
  { destruct (Z_le_gt_dec 53 L) as [|G]; [assumption|].
    pose proof (Z.pow_le_mono_r 2 (L + 1) 53 ltac:(lia) ltac:(lia)). lia. }
  set (s := 53 - L).
  assert (s <= 0) as Hs by (subst s; lia).
  assert (k * pow2_num s = k /\ 2 * pow2_den s = 2 ^ (L - 52)) as [-> ->].
  { destruct (Z.eq_dec s 0) as [E|N].
    - destruct (pow2_nonneg s ltac:(lia)) as [-> ->]. rewrite E.
      replace (L - 52) with 1 by (subst s; lia). split; reflexivity || ring.
    - destruct (pow2_neg s ltac:(lia)) as [-> ->].
      split; [ring|]. rewrite <- Z.pow_succ_r by lia. f_equal. subst s. lia. }
  destruct (pow2_nonneg (- s) ltac:(lia)) as [-> ->].
  pose proof (round_half_even_ge_floor k (2 ^ (L - 52))) as Hr.
  assert (2 ^ 52 <= k / 2 ^ (L - 52)) as Hfl.
  { apply Z.div_le_lower_bound; [apply Z.pow_pos_nonneg; lia|].
    rewrite <- Z.pow_add_r by lia.
    replace (L - 52 + 52) with L by lia. exact Hl. }
  assert (1 <= 2 ^ (- s)) as Hp
    by (pose proof (Z.pow_pos_nonneg 2 (- s) ltac:(lia) ltac:(lia)); lia).
  unfold Qle. simpl Qnum. simpl Qden.
  set (R := round_half_even k (2 ^ (L - 52))) in *.
  set (P := 2 ^ (- s)) in *. set (T := 2 ^ 52) in *.
  change (Z.pos (Z.to_pos 1)) with 1. nia.
Qed.

(** The ceiling of [1.5 * c] in integer arithmetic, where the product
    is exact. *)
Lemma estimatedTokens_Z (r : FilterResult) :
  3 * Z.abs (totalChars (stats r)) <= 2 ^ 53 ->
  estimatedTokens (Some r) = Qceiling (inject_Z (totalChars (stats r)) * (3 # 2))
  /\ estimatedTokens (Some r) = (3 * totalChars (stats r) + 1) / 2.
Proof.
  unfold estimatedTokens. generalize (totalChars (stats r)). intros c Hc.
  assert (Qceiling (inject_Z c * (3 # 2)) = (3 * c + 1) / 2) as Hexact.
  { unfold Qceiling, Qfloor, inject_Z, Qmult, Qopp; simpl.
    change (Z.pos (1 * 2)) with 2.
    Z.to_euclidean_division_equations; lia. }
  rewrite Hexact.
  assert (Qceiling (binary64 (inject_Z c * (3 # 2))) = (3 * c + 1) / 2)
    as ->; [|now split].
  rewrite <- Hexact.
  destruct c as [|p|p].
  - reflexivity.
  - change (binary64 (inject_Z (Z.pos p) * (3 # 2)))
      with (binary64_pos (Z.pos p * 3) 2).
    apply Qceiling_comp.
    rewrite binary64_pos_exact by lia. reflexivity.
  - change (binary64 (inject_Z (Z.neg p) * (3 # 2)))
      with (Qopp (binary64_pos (Z.pos p * 3) 2)).
    apply Qceiling_comp.
    rewrite binary64_pos_exact by lia. reflexivity.
Qed.

Lemma estimatedTokens_huge (r : FilterResult) :
  2 ^ 53 < 3 * totalChars (stats r) -> 2 ^ 52 <= estimatedTokens (Some r).
Proof.
  unfold estimatedTokens. generalize (totalChars (stats r)). intros c Hc.
  destruct c as [|p|p]; try lia.
  change (binary64 (inject_Z (Z.pos p) * (3 # 2)))
    with (binary64_pos (Z.pos p * 3) 2).
  rewrite <- (Qceiling_Z (2 ^ 52)).
  apply Qceiling_resp_le, binary64_pos_large. lia.
Qed.

Lemma estimatedTokens_huge_negative (r : FilterResult) :
  3 * totalChars (stats r) < - 2 ^ 53 -> estimatedTokens (Some r) <= - 2 ^ 52.
Proof.
  unfold estimatedTokens. generalize (totalChars (stats r)). intros c Hc.
  destruct c as [|p|p]; try lia.
  change (binary64 (inject_Z (Z.neg p) * (3 # 2)))
    with (Qopp (binary64_pos (Z.pos p * 3) 2)).
  rewrite <- (Qceiling_Z (- 2 ^ 52)).
  apply Qceiling_resp_le.
  change (inject_Z (- 2 ^ 52)) with (Qopp (inject_Z (2 ^ 52))).
  apply Qopp_le_compat, binary64_pos_large. lia.
Qed.

Lemma tokenStatus_cases (fr : option FilterResult) :
  (tokenStatus fr = green <-> estimatedTokens fr < 50000)
  /\ (tokenStatus fr = yellow <->
      50000 <= estimatedTokens fr /\ estimatedTokens fr < 100000)
  /\ (tokenStatus fr = red <-> 100000 <= estimatedTokens fr).
Proof.
  unfold tokenStatus.
  destruct (Z.ltb_spec (estimatedTokens fr) 50000);
    destruct (Z.ltb_spec (estimatedTokens fr) 100000);
    repeat split; intros; try discriminate; try lia; reflexivity.
Qed.

(** The status as a function of the character count, for every count. *)
Lemma tokenStatus_by_chars (r : FilterResult) :
  (tokenStatus (Some r) = green <-> totalChars (stats r) <= 33332)
  /\ (tokenStatus (Some r) = yellow <->
      33333 <= totalChars (stats r) <= 66666)
  /\ (tokenStatus (Some r) = red <-> 66667 <= totalChars (stats r)).
Proof.
  destruct (tokenStatus_cases (Some r)) as (-> & -> & ->).
  pose proof (estimatedTokens_Z r) as Hexact.
  pose proof (estimatedTokens_huge r) as Hhuge.
  pose proof (estimatedTokens_huge_negative r) as Hneg.
  revert Hexact Hhuge Hneg.
  generalize (estimatedTokens (Some r)) (totalChars (stats r)).
  intros t c.
  change (2 ^ 53) with 9007199254740992.
  change (2 ^ 52) with 4503599627370496.
  intros Hexact Hhuge Hneg.
  destruct (Z_le_gt_dec (3 * Z.abs c) 9007199254740992) as [Hin|Hout].
  - destruct (Hexact Hin) as [_ ->].
    repeat split; intros; Z.to_euclidean_division_equations; lia.
  - destruct (Z_le_gt_dec 0 c) as [Hpos|Hnegc].
    + specialize (Hhuge ltac:(lia)). repeat split; intros; lia.
    + specialize (Hneg ltac:(lia)). repeat split; intros; lia.
Qed.

(** C7, as the spec states it, fails for very large counts: at
    [totalChars = 3002399751580331] the exact product is
    4503599627370496.5, which is not a binary64 number; the product
    computed is the even neighbour 4503599627370496, and that, not the
    ceiling 4503599627370497 of the exact product, is the estimate. *)
Lemma estimatedTokens_of_rounded_product :
  estimatedTokens (Some (Fixture.withChars 3002399751580331))
  = 4503599627370496
  /\ Qceiling (inject_Z 3002399751580331 * (3 # 2)) = 4503599627370497
  /\ estimatedTokens (Some (Fixture.withChars 3002399751580331))
     <> Qceiling (inject_Z 3002399751580331 * (3 # 2)).
Proof.
  assert (estimatedTokens (Some (Fixture.withChars 3002399751580331))
          = 4503599627370496) as H1 by (vm_compute; reflexivity).
  assert (Qceiling (inject_Z 3002399751580331 * (3 # 2))
          = 4503599627370497) as H2 by (vm_compute; reflexivity).
  split; [exact H1|]. split; [exact H2|]. rewrite H1, H2. discriminate.
Qed.

(** C7, amended. For every FilterResult whose [totalChars] [c] is an
    integer with [3 * |c| <= 2^53], [estimatedTokens] is the ceiling of
    [c * 1.5], that is the integer [t] with [t - 1 < 1.5 * c <= t]; for
    larger counts the product is rounded to binary64 before the
    ceiling is taken.  For every FilterResult, [tokenStatus] is green
    when [estimatedTokens < 50000], yellow when
    [50000 <= estimatedTokens < 100000] and red otherwise. *)
Theorem estimatedTokens_tokenStatus_spec (r : FilterResult) :
  3 * Z.abs (totalChars (stats r)) <= 2 ^ 53 ->
  let c := totalChars (stats r) in
  let t := estimatedTokens (Some r) in
  t = Qceiling (inject_Z c * (3 # 2))
  /\ (2 * (t - 1) < 3 * c /\ 3 * c <= 2 * t)
  /\ (forall fr : option FilterResult,
        (tokenStatus fr = green <-> estimatedTokens fr < 50000)
        /\ (tokenStatus fr = yellow <->
            50000 <= estimatedTokens fr /\ estimatedTokens fr < 100000)
        /\ (tokenStatus fr = red <-> 100000 <= estimatedTokens fr)).
Proof.
  intros Hc c t. destruct (estimatedTokens_Z r Hc) as [Hq Hz].
  split; [exact Hq|]. split; [|exact tokenStatus_cases].
  subst t c. rewrite Hz.
  generalize (totalChars (stats r)); intros c.
  Z.to_euclidean_division_equations; lia.
Qed.

Lemma estimatedTokens_tokenStatus_spec_witness :
  estimatedTokens (Some (Fixture.withChars 3002399751580330))
  = Qceiling (inject_Z 3002399751580330 * (3 # 2)).
Proof.
  apply (estimatedTokens_tokenStatus_spec
           (Fixture.withChars 3002399751580330)).
  vm_compute. discriminate.
Defined.

(** C6, as the spec states it, fails at [totalChars = 33333]: the
    product is 49999.5, its ceiling is 50000, which is not below 50000,
    and the status is yellow. *)
Lemma token_33333_is_not_green :
  ~ (estimatedTokens (Some (Fixture.withChars 33333)) < 50000
     /\ tokenStatus (Some (Fixture.withChars 33333)) = green)
  /\ estimatedTokens (Some (Fixture.withChars 33333)) = 50000
  /\ tokenStatus (Some (Fixture.withChars 33333)) = yellow.
Proof.
  split; [|split]; [|reflexivity|reflexivity].
  intros [H _]. vm_compute in H. discriminate.
Qed.

(** C6, amended. With the 1.5 multiplier and ceiling rounding:
    [totalChars = 33332] gives 49998 tokens and green, 33333 gives
    exactly 50000 and yellow, 33334 gives 50001 and yellow, 66666 gives
    99999 and yellow, 66667 gives 100001 and red.  For every count the
    status is green up to 33332 characters, yellow from 33333 to 66666
    and red from 66667 on; in tokens the boundaries are exactly 50000
    and 100000. *)
Theorem token_threshold_boundaries (bs : list Block) (tm hm : Z) :
  let res c :=
    Some {| blocks := bs;
            stats := {| totalMessages := tm; hitMessages := hm;
                        totalChars := c |} |} in
  (estimatedTokens (res 33332) = 49998 /\ tokenStatus (res 33332) = green)
  /\ (estimatedTokens (res 33333) = 50000 /\ tokenStatus (res 33333) = yellow)
  /\ (estimatedTokens (res 33334) = 50001 /\ tokenStatus (res 33334) = yellow)
  /\ (estimatedTokens (res 66666) = 99999 /\ tokenStatus (res 66666) = yellow)
  /\ (estimatedTokens (res 66667) = 100001 /\ tokenStatus (res 66667) = red)
  /\ (forall c : Z,
        (tokenStatus (res c) = green <-> c <= 33332)
        /\ (tokenStatus (res c) = yellow <-> 33333 <= c <= 66666)
        /\ (tokenStatus (res c) = red <-> 66667 <= c))
  /\ (forall c : Z,
        (tokenStatus (res c) = green <-> estimatedTokens (res c) < 50000)
        /\ (tokenStatus (res c) = yellow <->
            50000 <= estimatedTokens (res c) < 100000)
        /\ (tokenStatus (res c) = red <-> 100000 <= estimatedTokens (res c))).
Proof.
  intros res.
  split; [split; reflexivity|]. split; [split; reflexivity|].
  split; [split; reflexivity|]. split; [split; reflexivity|].
  split; [split; reflexivity|]. split.
  - intros c.
    exact (tokenStatus_by_chars
             {| blocks := bs;
                stats := {| totalMessages := tm; hitMessages := hm;
                            totalChars := c |} |}).
  - intros c. apply tokenStatus_cases.
Qed.

End TokenEstimate.

(** ** Block navigation state machine *)

Section Navigation.
Import Preview.

Lemma flushWatchers_same_pending (e : Event) (old s : State) :
  resultChanged e old = false ->
  pendingScrollToMessageId s = pendingScrollToMessageId old ->
  flushWatchers e old s = s.
Proof.
  intros Hres Hpend. unfold flushWatchers. rewrite Hres.
  destruct (decide _) as [_|Hne]; [reflexivity|]. now destruct Hne.
Qed.

Lemma goToNextBlock_pending (s : State) :
  pendingScrollToMessageId (goToNextBlock s) = pendingScrollToMessageId s.
Proof.
  unfold goToNextBlock.
  destruct (isBlockSwitching s); [reflexivity|].
  destruct (blockCount s =? 0); [reflexivity|].
  destruct (selectedBlockIndex s <? blockCount s - 1); reflexivity.
Qed.

Lemma step_ReachBottom (s : State) : step s ReachBottom = goToNextBlock s.
Proof.
  unfold step. apply flushWatchers_same_pending; [reflexivity|].
  apply goToNextBlock_pending.
Qed.

(** A trigger that arrives while the flag is set is dropped. *)
Lemma goToNextBlock_while_switching (s : State) :
  isBlockSwitching s = true -> goToNextBlock s = s.
Proof. intros H. unfold goToNextBlock. now rewrite H. Qed.

Lemma run_ReachBottom_while_switching (n : nat) (s : State) :
  isBlockSwitching s = true -> run (repeat ReachBottom n) s = s.
Proof.
  intros H. induction n as [|n IH]; [reflexivity|].
  change (run (repeat ReachBottom (S n)) s)
    with (run (repeat ReachBottom n) (step s ReachBottom)).
  rewrite step_ReachBottom, goToNextBlock_while_switching by exact H.
  exact IH.
Qed.

(** An accepted trigger: the flag is set, the index moves by one, the
    index pane is told to centre the new row, one 300 ms timer starts. *)
Lemma goToNextBlock_accepted (s : State) :
  isBlockSwitching s = false ->
  blockCount s <> 0 ->
  selectedBlockIndex s < blockCount s - 1 ->
  goToNextBlock s =
    {| result := result s; isLoading := isLoading s;
       selectedBlockIndex := selectedBlockIndex s + 1;
       isBlockSwitching := true;
       pendingScrollToMessageId := pendingScrollToMessageId s;
       unlockTimers := S (unlockTimers s);
       scrollTimers := scrollTimers s;
       blockListScrolls := blockListScrolls s ++ [selectedBlockIndex s + 1];
       messageListScrolls := messageListScrolls s |}.
Proof.
  intros Hidle Hcount Hlast. unfold goToNextBlock. rewrite Hidle.
  destruct (Z.eqb_spec (blockCount s) 0) as [E|_]; [contradiction|].
  destruct (Z.ltb_spec (selectedBlockIndex s) (blockCount s - 1)) as [_|G];
    [reflexivity|lia].
Qed.

(** C9. When the machine is already Advancing, or there is no block,
    or the active block is the last one, [goToNextBlock] changes
    nothing: the whole state, with the index, the flag, the timers and
    the commands sent so far, is the one before the call. *)
Theorem goToNextBlock_guards (s : State) :
  isBlockSwitching s = true \/ blockCount s = 0
    \/ selectedBlockIndex s = blockCount s - 1 ->
  goToNextBlock s = s /\ step s ReachBottom = s.
Proof.
  intros H. rewrite step_ReachBottom.
  assert (goToNextBlock s = s) as E; [|now rewrite E].
  unfold goToNextBlock.
  destruct (isBlockSwitching s); [reflexivity|].
  destruct H as [H|[H|H]]; [discriminate| |].
  - now rewrite H.
  - destruct (blockCount s =? 0); [reflexivity|].
    rewrite H, Z.ltb_irrefl. reflexivity.
Qed.

Lemma goToNextBlock_guards_witness :
  let last := run [Click 2] (mount (Some Fixture.threeBlocks) false) in
  selectedBlockIndex last = blockCount last - 1
  /\ goToNextBlock last = last /\ step last ReachBottom = last.
Proof.
  split; [reflexivity|].
  apply (goToNextBlock_guards
           (run [Click 2] (mount (Some Fixture.threeBlocks) false))).
  right; right; reflexivity.
Defined.

(** C2. [n >= 1] reach-bottom triggers in a row, with no timer expiry
    between them, starting while the machine is Idle on a result of at
    least two blocks whose active block is not the last: the index
    advances by exactly one.  The first trigger is accepted and sets
    the flag; each later one finds the flag set and is dropped, so the
    state after [n] triggers is the state after one. *)
Theorem rapid_triggers_advance_once (n : nat) (s : State) :
  (1 <= n)%nat ->
  Idle s ->
  2 <= blockCount s ->
  0 <= selectedBlockIndex s < blockCount s ->
  selectedBlockIndex s <> blockCount s - 1 ->
  let s' := run (repeat ReachBottom n) s in
  selectedBlockIndex s' = selectedBlockIndex s + 1
  /\ Advancing s'
  /\ s' = step s ReachBottom
  /\ unlockTimers s' = S (unlockTimers s)
  /\ blockListScrolls s' = blockListScrolls s ++ [selectedBlockIndex s + 1].
Proof.
  intros Hn Hidle Hcount Hrange Hlast s'.
  assert (goToNextBlock s =
    {| result := result s; isLoading := isLoading s;
       selectedBlockIndex := selectedBlockIndex s + 1;
       isBlockSwitching := true;
       pendingScrollToMessageId := pendingScrollToMessageId s;
       unlockTimers := S (unlockTimers s);
       scrollTimers := scrollTimers s;
       blockListScrolls := blockListScrolls s ++ [selectedBlockIndex s + 1];
       messageListScrolls := messageListScrolls s |}) as Hgo
    by (apply goToNextBlock_accepted; [exact Hidle|lia|lia]).
  assert (s' = goToNextBlock s) as Hs'.
  { subst s'. destruct n as [|n]; [lia|].
    change (run (repeat ReachBottom (S n)) s)
      with (run (repeat ReachBottom n) (step s ReachBottom)).
    rewrite step_ReachBottom.
    apply run_ReachBottom_while_switching. now rewrite Hgo. }
  rewrite step_ReachBottom, Hs', Hgo. unfold Advancing. simpl.
  repeat split; reflexivity.
Qed.

Lemma rapid_triggers_advance_once_witness :
  let s := mount (Some Fixture.threeBlocks) false in
  selectedBlockIndex (run (repeat ReachBottom 5) s) = 1.
Proof.
  apply (rapid_triggers_advance_once 5
           (mount (Some Fixture.threeBlocks) false));
    [lia | reflexivity | vm_compute; discriminate
    | vm_compute; split; [discriminate|reflexivity]
    | vm_compute; discriminate].
Defined.

End Navigation.

(** ** Array reads and the reversed index *)

Section Projection.
Import Preview.

Lemma js_index_in_range {A} (arr : list A) (i : Z) :
  0 <= i < js_length arr ->
  exists a, arr !! Z.to_nat i = Some a /\ js_index arr i = ref a.
Proof.
  intros [Hlo Hhi]. unfold js_index, js_length in *.
  destruct (decide (0 <= i)) as [_|?]; [|lia].
  destruct (arr !! Z.to_nat i) as [a|] eqn:E; [now exists a|].
  apply lookup_ge_None in E. lia.
Qed.

Lemma js_index_out_of_range {A} (arr : list A) (i : Z) :
  i < 0 \/ js_length arr <= i -> js_index arr i = undefined.
Proof.
  intros H. unfold js_index, js_length in *.
  destruct (decide (0 <= i)) as [Hlo|_]; [|reflexivity].
  destruct (arr !! Z.to_nat i) as [a|] eqn:E; [|reflexivity].
  apply lookup_lt_Some in E. lia.
Qed.

Lemma find_head_filter {A} (f : A -> bool) (l : list A) :
  List.find f l = head (List.filter f l).
Proof.
  induction l as [|a l IH]; [reflexivity|]. simpl.
  destruct (f a); [reflexivity|exact IH].
Qed.

(** A valid row position reads the block at the mirrored storage
    position, which is also the block at that position of the reversed
    array. *)
Lemma getBlockAtReversedIndex_in_range (r : FilterResult) (p : Z) :
  0 <= p < js_length (blocks r) ->
  exists block,
    blocks r !! Z.to_nat (js_length (blocks r) - 1 - p) = Some block
    /\ reverse (blocks r) !! Z.to_nat p = Some block
    /\ getBlockAtReversedIndex (Some r) p = ref block.
Proof.
  intros Hp. unfold getBlockAtReversedIndex.
  destruct (js_index_in_range (blocks r) (js_length (blocks r) - 1 - p))
    as (block & Hlook & Hidx); [lia|].
  exists block. split; [exact Hlook|]. split; [|exact Hidx].
  unfold js_length in *. rewrite reverse_lookup by lia.
  rewrite <- Hlook. f_equal. lia.
Qed.

Lemma getBlockAtReversedIndex_out_of_range (r : FilterResult) (i : Z) :
  i < 0 \/ js_length (blocks r) <= i ->
  getBlockAtReversedIndex (Some r) i = undefined.
Proof.
  intros H. unfold getBlockAtReversedIndex.
  apply js_index_out_of_range. lia.
Qed.

Lemma currentBlockMessages_of_block (s : State) (block : Block) :
  blockCount s <> 0 ->
  activeBlock s = ref block ->
  currentBlockMessages s = map toChatRecordMessage (messages block).
Proof.
  intros Hc Hb. unfold currentBlockMessages.
  destruct (Z.eqb_spec (blockCount s) 0); [contradiction|].
  unfold activeBlock in Hb. now rewrite Hb.
Qed.

Lemma hitMessageIds_of_block (s : State) (block : Block) :
  blockCount s <> 0 ->
  activeBlock s = ref block ->
  hitMessageIds s =
    map FilterMessage.id (List.filter FilterMessage.isHit (messages block)).
Proof.
  intros Hc Hb. unfold hitMessageIds.
  destruct (Z.eqb_spec (blockCount s) 0); [contradiction|].
  unfold activeBlock in Hb. now rewrite Hb.
Qed.

(** What a click leaves of the props and the index, watcher flush
    included. *)
Lemma selectBlock_result (i : Z) (s : State) :
  result (selectBlock i s) = result s.
Proof.
  unfold selectBlock. simpl.
  destruct (getBlockAtReversedIndex (result s) i) as [| |block];
    try reflexivity.
  destruct (List.find _ _); reflexivity.
Qed.

Lemma selectBlock_index (i : Z) (s : State) :
  selectedBlockIndex (selectBlock i s) = i.
Proof.
  unfold selectBlock. simpl.
  destruct (getBlockAtReversedIndex (result s) i) as [| |block];
    try reflexivity.
  destruct (List.find _ _); reflexivity.
Qed.

Lemma flushWatchers_projection (e : Event) (old s : State) :
  resultChanged e old = false ->
  result (flushWatchers e old s) = result s
  /\ selectedBlockIndex (flushWatchers e old s) = selectedBlockIndex s
  /\ pendingScrollToMessageId (flushWatchers e old s)
     = pendingScrollToMessageId s.
Proof.
  intros H. unfold flushWatchers. rewrite H.
  destruct (decide _); [now repeat split|].
  unfold onPendingScrollChange.
  destruct (pendingScrollToMessageId s) eqn:E; now repeat split.
Qed.

(** C5. Reversal invariant.  For a loaded result and a row position
    [p] in [0, blockCount), the block of row [p] is the storage block
    [blocks[blockCount - 1 - p]] (row [p] of the reversed array); after
    a click on row [p] the active block is that block, so its start
    timestamp is [blocks[blockCount - 1 - p].startTs], and
    [currentBlockMessages] and [hitMessageIds] are computed from that
    same block. *)
Theorem reversal_invariant (s : State) (r : FilterResult) (p : Z) :
  result s = Some r ->
  0 <= p < blockCount s ->
  exists block,
    blocks r !! Z.to_nat (blockCount s - 1 - p) = Some block
    /\ reverse (blocks r) !! Z.to_nat p = Some block
    /\ getBlockAtReversedIndex (result s) p = ref block
    /\ let s' := step s (Click p) in
       selectedBlockIndex s' = p
       /\ activeBlock s' = ref block
       /\ startTsOr0 (activeBlock s') = startTs block
       /\ currentBlockMessages s' = map toChatRecordMessage (messages block)
       /\ hitMessageIds s' =
            map FilterMessage.id
              (List.filter FilterMessage.isHit (messages block)).
Proof.
  intros Hr Hp.
  assert (blockCount s = js_length (blocks r)) as Hcount
    by (unfold blockCount; now rewrite Hr).
  rewrite Hcount in *.
  destruct (getBlockAtReversedIndex_in_range r p Hp)
    as (block & Hsto & Hrev & Hget).
  exists block. rewrite Hr.
  split; [exact Hsto|]. split; [exact Hrev|]. split; [exact Hget|].
  intros s'.
  destruct (flushWatchers_projection (Click p) s (handle (Click p) s)
              eq_refl) as (Hres & Hidx & _).
  fold (step s (Click p)) in Hres, Hidx. fold s' in Hres, Hidx.
  simpl in Hres, Hidx.
  rewrite selectBlock_result in Hres. rewrite selectBlock_index in Hidx.
  assert (activeBlock s' = ref block) as Hact
    by (unfold activeBlock; now rewrite Hres, Hidx, Hr).
  assert (blockCount s' <> 0) as Hnz
    by (unfold blockCount; rewrite Hres, Hr; lia).
  split; [exact Hidx|]. split; [exact Hact|].
  split; [now rewrite Hact|].
  split; [now apply currentBlockMessages_of_block
         |now apply hitMessageIds_of_block].
Qed.

Lemma reversal_invariant_witness :
  exists block,
    blocks Fixture.threeBlocks !! 0%nat = Some block
    /\ startTsOr0
         (activeBlock
            (step (mount (Some Fixture.threeBlocks) false) (Click 2)))
       = startTs block.
Proof.
  destruct (reversal_invariant (mount (Some Fixture.threeBlocks) false)
              Fixture.threeBlocks 2 eq_refl)
    as (block & Hsto & _ & _ & _ & _ & Hts & _).
  - vm_compute. split; [discriminate|reflexivity].
  - exists block. split; [exact Hsto|exact Hts].
Defined.

(** C10. The projection never faults.  Without a result the lookup is
    [null]; with a result and an index outside [0, blockCount), which
    covers every index when there are no blocks, it is [undefined]; and
    in both cases [currentBlockMessages] and [hitMessageIds] are the
    empty list. *)
Theorem projection_total (s : State) :
  result s = None \/ selectedBlockIndex s < 0
    \/ blockCount s <= selectedBlockIndex s ->
  getBlockAtReversedIndex (result s) (selectedBlockIndex s)
    = match result s with Some _ => undefined | None => null end
  /\ truthy (getBlockAtReversedIndex (result s) (selectedBlockIndex s)) = false
  /\ currentBlockMessages s = []
  /\ hitMessageIds s = [].
Proof.
  intros H.
  assert (getBlockAtReversedIndex (result s) (selectedBlockIndex s)
          = match result s with Some _ => undefined | None => null end)
    as Hget.
  { unfold blockCount in H. destruct (result s) as [r|]; [|reflexivity].
    apply getBlockAtReversedIndex_out_of_range.
    destruct H as [H|H]; [discriminate|exact H]. }
  unfold currentBlockMessages, hitMessageIds. rewrite Hget.
  destruct (result s); destruct (blockCount s =? 0); now repeat split.
Qed.

Lemma projection_total_witness :
  let stale := set_selectedBlockIndex 2 (mount (Some Fixture.rerun) false) in
  currentBlockMessages stale = [] /\ hitMessageIds stale = [].
Proof.
  destruct (projection_total
              (set_selectedBlockIndex 2 (mount (Some Fixture.rerun) false)))
    as (_ & _ & Hcur & Hhit).
  - right; right. vm_compute. discriminate.
  - split; [exact Hcur|exact Hhit].
Defined.

End Projection.

(** ** Selection, result replacement and the delayed scroll *)

Section Synchronizer.
Import Preview.

(** C4, as the spec states it, fails when the selected block has no
    hit: after a click on the newest block (pending target 41) a click
    on the middle block, which has no hit message, leaves the pending
    target at 41 instead of clearing it. *)
Lemma selectBlock_without_hit_keeps_target :
  let s := run [Click 0] (mount (Some Fixture.threeBlocks) false) in
  let s' := selectBlock 1 s in
  pendingScrollToMessageId s = Some 41
  /\ selectedBlockIndex s' = 1
  /\ activeBlock s' = ref Fixture.middle
  /\ hitMessageIds s' = []
  /\ pendingScrollToMessageId s' = Some 41
  /\ pendingScrollToMessageId s' <> None.
Proof. vm_compute. repeat split; discriminate. Qed.

(** C4, amended. For a loaded result and a valid row position [i],
    [selectBlock(i)] sets the index to [i]; when the block of row [i]
    has a hit message, the id of its first hit message becomes the
    pending scroll target; when it has none, the pending scroll target
    keeps the value it had. *)
Theorem selectBlock_index_and_target (s : State) (r : FilterResult) (i : Z) :
  result s = Some r ->
  0 <= i < blockCount s ->
  let s' := selectBlock i s in
  selectedBlockIndex s' = i
  /\ exists block,
       blocks r !! Z.to_nat (blockCount s - 1 - i) = Some block
       /\ activeBlock s' = ref block
       /\ hitMessageIds s' =
            map FilterMessage.id
              (List.filter FilterMessage.isHit (messages block))
       /\ pendingScrollToMessageId s' =
            match hitMessageIds s' with
            | firstHit :: _ => Some firstHit
            | [] => pendingScrollToMessageId s
            end.
Proof.
  intros Hr Hi s'.
  assert (blockCount s = js_length (blocks r)) as Hcount
    by (unfold blockCount; now rewrite Hr).
  rewrite Hcount in *.
  destruct (getBlockAtReversedIndex_in_range r i Hi)
    as (block & Hsto & _ & Hget).
  assert (selectedBlockIndex s' = i) as Hidx by apply selectBlock_index.
  assert (result s' = Some r) as Hres
    by (subst s'; now rewrite selectBlock_result).
  assert (activeBlock s' = ref block) as Hact
    by (unfold activeBlock; now rewrite Hres, Hidx).
  assert (blockCount s' <> 0) as Hnz
    by (unfold blockCount; rewrite Hres; lia).
  split; [exact Hidx|]. exists block.
  split; [exact Hsto|]. split; [exact Hact|].
  rewrite (hitMessageIds_of_block s' block Hnz Hact).
  split; [reflexivity|].
  subst s'. unfold selectBlock. simpl. rewrite Hr, Hget.
  rewrite find_head_filter.
  destruct (List.filter FilterMessage.isHit (messages block));
    reflexivity.
Qed.

Lemma selectBlock_index_and_target_witness :
  let s := mount (Some Fixture.threeBlocks) false in
  selectedBlockIndex (selectBlock 0 s) = 0
  /\ pendingScrollToMessageId (selectBlock 0 s) = Some 41.
Proof.
  destruct (selectBlock_index_and_target
              (mount (Some Fixture.threeBlocks) false)
              Fixture.threeBlocks 0 eq_refl)
    as (Hidx & block & _ & _ & _ & Hpend).
  - vm_compute. split; [discriminate|reflexivity].
  - split; [exact Hidx|]. rewrite Hpend. reflexivity.
Defined.

(** C3, as the spec states it, fails from [Advancing]: after an
    accepted reach-bottom trigger the flag is set; the parent then
    clears the result and later assigns the next one, and each of the
    two replacements resets the index and the pending target but
    leaves the flag set. *)
Lemma result_replaced_while_advancing :
  let s := run [Click 0; ReachBottom]
             (mount (Some Fixture.threeBlocks) false) in
  let s1 := step s (ResultProp None) in
  let s2 := step s1 (ResultProp (Some Fixture.rerun)) in
  Advancing s
  /\ selectedBlockIndex s = 1
  /\ pendingScrollToMessageId s = Some 41
  /\ (selectedBlockIndex s1 = 0
      /\ pendingScrollToMessageId s1 = None
      /\ ~ Idle s1)
  /\ (selectedBlockIndex s2 = 0
      /\ pendingScrollToMessageId s2 = None
      /\ ~ Idle s2).
Proof. vm_compute. repeat split; discriminate. Qed.

(** C3, amended. Whenever the result prop changes (to another result
    or to [null]), whatever the machine state, the index and the
    pending target before: the index becomes 0 and the pending scroll
    target is cleared.  The [isBlockSwitching] flag and the timers in
    flight are left as they were, so an Idle machine is Idle
    afterwards and an Advancing one stays Advancing until its 300 ms
    timer expires. *)
Theorem result_replacement_resets (s : State) (r' : option FilterResult) :
  result s <> None \/ r' <> None ->
  let s' := step s (ResultProp r') in
  result s' = r'
  /\ selectedBlockIndex s' = 0
  /\ pendingScrollToMessageId s' = None
  /\ isBlockSwitching s' = isBlockSwitching s
  /\ unlockTimers s' = unlockTimers s
  /\ scrollTimers s' = scrollTimers s.
Proof.
  intros Hchg s'. subst s'. unfold step, flushWatchers.
  assert (resultChanged (ResultProp r') s = true) as ->.
  { simpl. destruct (result s), r'; try reflexivity.
    destruct Hchg as [H|H]; now destruct H. }
  destruct (decide _); now repeat split.
Qed.

Lemma result_replacement_resets_witness :
  let s := run [Click 0; ReachBottom]
             (mount (Some Fixture.threeBlocks) false) in
  let s' := step s (ResultProp None) in
  selectedBlockIndex s' = 0 /\ pendingScrollToMessageId s' = None.
Proof.
  destruct (result_replacement_resets
              (run [Click 0; ReachBottom]
                 (mount (Some Fixture.threeBlocks) false)) None)
    as (_ & Hidx & Hpend & _).
  - left. vm_compute. discriminate.
  - split; [exact Hidx|exact Hpend].
Defined.

(** The 300 ms timer brings the machine back to [Idle]. *)
Lemma unlock_timeout_idle (s : State) (n : nat) :
  unlockTimers s = S n -> Idle (step s UnlockTimeout).
Proof.
  intros H. unfold Idle, step, flushWatchers, handle. rewrite H. simpl.
  destruct (decide _); [reflexivity|].
  unfold onPendingScrollChange. simpl.
  destruct (pendingScrollToMessageId s); reflexivity.
Qed.

(** The flush and the handlers other than [goToNextBlock] and the
    300 ms callback leave the flag and its timers alone. *)
Lemma flushWatchers_flag (e : Event) (old s : State) :
  isBlockSwitching (flushWatchers e old s) = isBlockSwitching s
  /\ unlockTimers (flushWatchers e old s) = unlockTimers s.
Proof.
  unfold flushWatchers, onResultChange, onPendingScrollChange.
  destruct (resultChanged e old); simpl;
    destruct (decide _); simpl; try (now split);
    destruct (pendingScrollToMessageId s); now split.
Qed.

Lemma selectBlock_flag (i : Z) (s : State) :
  isBlockSwitching (selectBlock i s) = isBlockSwitching s
  /\ unlockTimers (selectBlock i s) = unlockTimers s.
Proof.
  unfold selectBlock. simpl.
  destruct (getBlockAtReversedIndex (result s) i) as [| |block];
    try (now split).
  destruct (List.find _ _); now split.
Qed.

(** In every state the panel can reach, the machine is Advancing
    exactly while one 300 ms timer is in flight. *)
Lemma step_flag_timer (s : State) (e : Event) :
  unlockTimers s = (if isBlockSwitching s then 1 else 0)%nat ->
  unlockTimers (step s e)
  = (if isBlockSwitching (step s e) then 1 else 0)%nat.
Proof.
  intros Inv. unfold step.
  destruct (flushWatchers_flag e s (handle e s)) as [-> ->].
  destruct e; simpl; try exact Inv.
  - destruct (selectBlock_flag index s) as [-> ->]. exact Inv.
  - unfold goToNextBlock.
    destruct (isBlockSwitching s) eqn:F; [now rewrite F|].
    destruct (blockCount s =? 0); [now rewrite F|].
    destruct (selectedBlockIndex s <? blockCount s - 1);
      simpl; [now rewrite Inv|now rewrite F].
  - destruct (scrollTimers s) as [|m rest]; [exact Inv|].
    unfold scrollTimerCallback. simpl.
    destruct (messageListMounted _); exact Inv.
  - destruct (unlockTimers s) as [|n] eqn:U; [now rewrite U|]. simpl.
    destruct (isBlockSwitching s); [congruence|discriminate].
Qed.

(** X1. In every state reachable from mounting, whatever the order of
    clicks, scroll triggers, prop changes and timer expiries, the
    machine is Advancing exactly while one 300 ms timer is in flight
    and Idle exactly while none is: the flag is never left set without
    a timer to clear it, and timers never pile up. *)
Lemma reachable_flag_timer
    (r : option FilterResult) (loading : bool) (es : list Event) :
  let s := run es (mount r loading) in
  unlockTimers s = (if isBlockSwitching s then 1 else 0)%nat.
Proof.
  simpl. unfold run. generalize (mount r loading) (eq_refl :
    unlockTimers (mount r loading)
    = (if isBlockSwitching (mount r loading) then 1 else 0)%nat).
  induction es as [|e es IH]; intros s Inv; [exact Inv|].
  simpl. apply IH. now apply step_flag_timer.
Qed.

(** C1, as the spec states it, fails.  First trace: a click on the
    newest block starts the wait for message 41, a click on the oldest
    block during the wait supersedes the target by 20, and the first
    timer still sends 41 to the message pane, which shows messages 20
    and 21.  Second trace: the filter is run again during the wait,
    the result is cleared and then replaced, the target is cleared,
    and the timer still sends 41 to the pane that shows the new
    result. *)
Lemma stale_scroll_is_applied :
  (let s := run [Click 0; Click 2]
              (mount (Some Fixture.threeBlocks) false) in
   scrollTimers s = [41; 20]
   /\ pendingScrollToMessageId s = Some 20
   /\ selectedBlockIndex s = 2
   /\ map ChatRecordMessage.id (currentBlockMessages s) = [20; 21]
   /\ hitMessageIds s = [20]
   /\ messageListScrolls s = []
   /\ messageListScrolls (step s ScrollTimeout) = [41])
  /\ (let s := run [Click 0; LoadingProp true; ResultProp None;
                      ResultProp (Some Fixture.rerun); LoadingProp false]
                 (mount (Some Fixture.threeBlocks) false) in
      scrollTimers s = [41]
      /\ pendingScrollToMessageId s = None
      /\ hitMessageIds s = [40]
      /\ messageListScrolls s = []
      /\ messageListScrolls (step s ScrollTimeout) = [41]).
Proof. vm_compute. repeat split. Qed.

(** C1, amended. When the wait completes, the timer sends the
    scroll-to-message command with the id captured when the wait
    began to the message pane whenever that pane is mounted, whatever
    the pending target and the active block are by then, and then
    clears the pending target.  A command whose target was cleared or
    superseded during the wait is not dropped; the command is skipped
    only when the message pane is not mounted. *)
Theorem scroll_timeout_uses_captured_id
    (s : State) (messageId : Z) (rest : list Z) :
  scrollTimers s = messageId :: rest ->
  let s' := step s ScrollTimeout in
  messageListScrolls s' =
    (if messageListMounted s
     then messageListScrolls s ++ [messageId]
     else messageListScrolls s)
  /\ pendingScrollToMessageId s' = None
  /\ scrollTimers s' = rest
  /\ selectedBlockIndex s' = selectedBlockIndex s
  /\ result s' = result s
  /\ isBlockSwitching s' = isBlockSwitching s.
Proof.
  intros Htimer s'. subst s'.
  unfold step, flushWatchers, handle. rewrite Htimer. simpl.
  unfold scrollTimerCallback.
  change (messageListMounted (set_scrollTimers rest s))
    with (messageListMounted s).
  destruct (messageListMounted s); simpl;
    destruct (decide _); now repeat split.
Qed.

Lemma scroll_timeout_uses_captured_id_witness :
  let s := run [Click 0; Click 2]
             (mount (Some Fixture.threeBlocks) false) in
  pendingScrollToMessageId s = Some 20
  /\ messageListScrolls (step s ScrollTimeout) = [41].
Proof.
  split; [reflexivity|].
  destruct (scroll_timeout_uses_captured_id
              (run [Click 0; Click 2]
                 (mount (Some Fixture.threeBlocks) false))
              41 [20] eq_refl) as (Hscroll & _).
  rewrite Hscroll. reflexivity.
Defined.

End Synchronizer.

(** ** Session picker *)

Section Picker.
Import SessionPanel.

Lemma fold_delete_set (ids : list Z) (X : gset Z) :
  fold_left (fun acc id => acc ∖ {[id]}) ids X = X ∖ list_to_set ids.
Proof.
  revert X. induction ids as [|id ids IH]; intros X; simpl.
  - now rewrite difference_empty_L.
  - rewrite IH. now rewrite difference_difference_l_L.
Qed.

Lemma fold_add_set (ids : list Z) (X : gset Z) :
  fold_left (fun acc id => acc ∪ {[id]}) ids X = X ∪ list_to_set ids.
Proof.
  revert X. induction ids as [|id ids IH]; intros X; simpl.
  - now rewrite union_empty_r_L.
  - rewrite IH. now rewrite (assoc_L (∪)).
Qed.

Lemma every_selected (ids : list Z) (X : gset Z) :
  forallb (fun id => bool_decide (id ∈ X)) ids = true
  <-> (forall id, id ∈ ids -> id ∈ X).
Proof.
  rewrite forallb_forall. split; intros H id Hin.
  - apply list_elem_of_In in Hin. apply H in Hin.
    now apply bool_decide_eq_true in Hin.
  - apply bool_decide_eq_true. apply H. now apply list_elem_of_In.
Qed.

Lemma selectDate_group (date : string) (s : State) :
  getSessionIdsForDate date (selectDate date s)
  = getSessionIdsForDate date s.
Proof. reflexivity. Qed.

Lemma isDateFullySelected_iff (date : string) (s : State) :
  isDateFullySelected date s = true
  <-> getSessionIdsForDate date s <> []
      /\ (forall id, id ∈ getSessionIdsForDate date s -> id ∈ selectedSet s).
Proof.
  unfold isDateFullySelected. rewrite andb_true_iff, every_selected.
  assert ((0 <? js_length (getSessionIdsForDate date s)) = true
          <-> getSessionIdsForDate date s <> []) as ->; [|reflexivity].
  unfold js_length. destruct (getSessionIdsForDate date s); simpl.
  - split; [discriminate|congruence].
  - split; [discriminate|reflexivity].
Qed.

Lemma selectDate_adds (date : string) (s : State) :
  isDateFullySelected date s = false ->
  getSessionIdsForDate date s <> [] ->
  selectedSet (selectDate date s)
  = selectedSet s ∪ list_to_set (getSessionIdsForDate date s).
Proof.
  intros Hnot Hne. unfold selectDate. simpl.
  destruct (forallb _ (getSessionIdsForDate date s)) eqn:E.
  - exfalso. rewrite every_selected in E.
    assert (isDateFullySelected date s = true) as Ht
      by (apply isDateFullySelected_iff; now split).
    congruence.
  - apply fold_add_set.
Qed.

Lemma selectDate_removes (date : string) (s : State) :
  isDateFullySelected date s = true ->
  selectedSet (selectDate date s)
  = selectedSet s ∖ list_to_set (getSessionIdsForDate date s).
Proof.
  intros Hall. unfold selectDate. simpl.
  apply isDateFullySelected_iff in Hall as [_ Hall].
  rewrite <- every_selected in Hall. rewrite Hall.
  apply fold_delete_set.
Qed.

(** C8, as the spec states it, fails: [selectDate] toggles.  From an
    empty selection the first call selects sessions 1 and 2 of the
    date; the second call in a row removes them again, so the group is
    not fully selected after it and the set differs from the set after
    the first call.  On a date without sessions the group is not fully
    selected after the call either. *)
Lemma selectDate_twice_is_not_idempotent :
  let s0 := Fixture.picker ∅ in
  let s1 := selectDate "2024/1/1" s0 in
  let s2 := selectDate "2024/1/1" s1 in
  getSessionIdsForDate "2024/1/1" s0 = [1; 2]
  /\ isDateFullySelected "2024/1/1" s1 = true
  /\ isSelected 1 s1 = true
  /\ isDateFullySelected "2024/1/1" s2 = false
  /\ isSelected 1 s2 = false
  /\ selectedSet s2 <> selectedSet s1
  /\ getSessionIdsForDate "2024/1/3" s0 = []
  /\ isDateFullySelected "2024/1/3" (selectDate "2024/1/3" s0) = false.
Proof.
  intros s0 s1 s2.
  assert (isSelected 1 s1 = true) as H1 by (vm_compute; reflexivity).
  assert (isSelected 1 s2 = false) as H2 by (vm_compute; reflexivity).
  repeat split; try (vm_compute; reflexivity); try assumption.
  intros E. unfold isSelected in H1, H2. rewrite E in H2. congruence.
Qed.

(** C8, amended. [isDateFullySelected] is true iff the group of the
    date is not empty and every id of it is in the selection set.
    [selectDate] toggles the group: on a non-empty group that is not
    fully selected it adds every id of the group, after which the
    group is fully selected; a second call in a row then removes every
    id of the group, so the group is no longer fully selected and the
    resulting set is the set before the first call without the group,
    not the set after the first call. *)
Theorem selectDate_toggles_group (date : string) (s : State) :
  getSessionIdsForDate date s <> [] ->
  isDateFullySelected date s = false ->
  let ids := getSessionIdsForDate date s in
  let s1 := selectDate date s in
  let s2 := selectDate date s1 in
  (forall t : State,
     isDateFullySelected date t = true
     <-> getSessionIdsForDate date t <> []
         /\ (forall id, id ∈ getSessionIdsForDate date t ->
                        id ∈ selectedSet t))
  /\ selectedSet s1 = selectedSet s ∪ list_to_set ids
  /\ isDateFullySelected date s1 = true
  /\ selectedSet s2 = selectedSet s ∖ list_to_set ids
  /\ isDateFullySelected date s2 = false
  /\ selectedSet s2 <> selectedSet s1.
Proof.
  intros Hne Hnot ids s1 s2.
  assert (selectedSet s1 = selectedSet s ∪ list_to_set ids) as H1
    by now apply selectDate_adds.
  assert (isDateFullySelected date s1 = true) as Hfull.
  { apply isDateFullySelected_iff. split; [exact Hne|].
    intros id Hin. rewrite H1. apply elem_of_union. right.
    now apply elem_of_list_to_set. }
  assert (selectedSet s2 = selectedSet s ∖ list_to_set ids) as H2.
  { subst s2. rewrite selectDate_removes by exact Hfull.
    rewrite H1. change (getSessionIdsForDate date s1) with ids.
    apply set_eq. intros x.
    rewrite !elem_of_difference, elem_of_union. tauto. }
  assert (exists id, id ∈ ids) as [id Hid].
  { subst ids. destruct (getSessionIdsForDate date s) as [|id l];
      [contradiction|]. exists id. constructor. }
  assert (id ∈ (list_to_set ids : gset Z)) as HidL
    by now apply elem_of_list_to_set.
  split; [intros t; apply isDateFullySelected_iff|].
  split; [exact H1|]. split; [exact Hfull|]. split; [exact H2|].
  split.
  - destruct (isDateFullySelected date s2) eqn:E; [|reflexivity].
    apply isDateFullySelected_iff in E as [_ E].
    specialize (E id Hid). rewrite H2 in E.
    apply elem_of_difference in E as [_ E]. contradiction.
  - rewrite H1, H2. intros E.
    assert (id ∈ selectedSet s ∪ list_to_set ids) as Hin
      by (apply elem_of_union; now right).
    rewrite <- E in Hin.
    apply elem_of_difference in Hin as [_ Hin]. contradiction.
Qed.

Lemma selectDate_toggles_group_witness :
  let s0 := Fixture.picker ∅ in
  isDateFullySelected "2024/1/1" (selectDate "2024/1/1" s0) = true
  /\ isDateFullySelected "2024/1/1"
       (selectDate "2024/1/1" (selectDate "2024/1/1" s0)) = false.
Proof.
  destruct (selectDate_toggles_group "2024/1/1" (Fixture.picker ∅))
    as (_ & _ & Hfull & _ & Hnot & _).
  - vm_compute. discriminate.
  - vm_compute. reflexivity.
  - split; [exact Hfull|exact Hnot].
Defined.

End Picker.

(** ** Reachable states of the preview panel *)

Section Reachability.
Import Preview.

Lemma run_app (es1 es2 : list Event) (s : State) :
  run (es1 ++ es2) s = run es2 (run es1 s).
Proof. unfold run. apply fold_left_app. Qed.

Lemma flushWatchers_result_index (e : Event) (old s : State) :
  result (flushWatchers e old s) = result s
  /\ selectedBlockIndex (flushWatchers e old s)
     = (if resultChanged e old then 0 else selectedBlockIndex s).
Proof.
  unfold flushWatchers, onResultChange, onPendingScrollChange.
  destruct (resultChanged e old); simpl;
    destruct (decide _); simpl; try (now split);
    destruct (pendingScrollToMessageId s); now split.
Qed.

Lemma goToNextBlock_result (s : State) : result (goToNextBlock s) = result s.
Proof.
  unfold goToNextBlock.
  destruct (isBlockSwitching s); [reflexivity|].
  destruct (blockCount s =? 0); [reflexivity|].
  destruct (selectedBlockIndex s <? blockCount s - 1); reflexivity.
Qed.

Lemma goToNextBlock_index_bounds (s : State) :
  0 <= selectedBlockIndex s < Z.max 1 (blockCount s) ->
  0 <= selectedBlockIndex (goToNextBlock s) < Z.max 1 (blockCount s).
Proof.
  intros H. unfold goToNextBlock.
  destruct (isBlockSwitching s); [exact H|].
  destruct (blockCount s =? 0); [exact H|].
  destruct (Z.ltb_spec (selectedBlockIndex s) (blockCount s - 1));
    [simpl; lia|exact H].
Qed.

Lemma blockCount_result (s t : State) :
  result s = result t -> blockCount s = blockCount t.
Proof. intros H. unfold blockCount. now rewrite H. Qed.

(** One task keeps the index inside the rendered rows. *)
Lemma step_index_in_range (s : State) (e : Event) :
  clickable s e = true ->
  0 <= selectedBlockIndex s < Z.max 1 (blockCount s) ->
  0 <= selectedBlockIndex (step s e) < Z.max 1 (blockCount (step s e)).
Proof.
  intros Hclick Hin. unfold step.
  destruct (flushWatchers_result_index e s (handle e s)) as [Hres Hidx].
  rewrite Hidx, (blockCount_result _ (handle e s) Hres).
  destruct (resultChanged e s) eqn:Hchg; [lia|].
  destruct e; simpl in *; try exact Hin; try discriminate.
  - rewrite selectBlock_index.
    rewrite (blockCount_result _ s (selectBlock_result index s)). lia.
  - rewrite (blockCount_result _ s (goToNextBlock_result s)).
    now apply goToNextBlock_index_bounds.
  - destruct (result s) eqn:Er, r; try discriminate.
    unfold blockCount in *. simpl. now rewrite Er in Hin.
  - destruct (scrollTimers s) as [|m rest]; [exact Hin|].
    unfold scrollTimerCallback.
    destruct (messageListMounted _); exact Hin.
  - destruct (unlockTimers s); exact Hin.
Qed.

(** X2. Whatever the parent and the user do, as long as clicks land on
    rendered rows, the selected index stays inside the rows of the
    current result (and is 0 when there is none), so that a result with
    blocks always has an active block. *)
Theorem index_stays_in_range
    (r : option FilterResult) (loading : bool) (es : list Event) :
  wellFormed es (mount r loading) = true ->
  let s := run es (mount r loading) in
  0 <= selectedBlockIndex s < Z.max 1 (blockCount s)
  /\ (blockCount s <> 0 -> exists block, activeBlock s = ref block).
Proof.
  intros Hwf s.
  assert (0 <= selectedBlockIndex s < Z.max 1 (blockCount s)) as Hin.
  { subst s. revert Hwf.
    assert (0 <= selectedBlockIndex (mount r loading)
            < Z.max 1 (blockCount (mount r loading))) as H0
      by (simpl; lia).
    revert H0. generalize (mount r loading).
    induction es as [|e es IH]; intros s0 H0 Hwf; [exact H0|].
    simpl in Hwf. apply andb_true_iff in Hwf as [Hc Hwf].
    apply (IH (step s0 e)); [now apply step_index_in_range|exact Hwf]. }
  split; [exact Hin|]. intros Hnz.
  unfold activeBlock, blockCount in *.
  destruct (result s) as [res|]; [|contradiction].
  destruct (getBlockAtReversedIndex_in_range res (selectedBlockIndex s))
    as (block & _ & _ & Hget); [unfold js_length in *; lia|].
  now exists block.
Qed.

Lemma index_stays_in_range_witness :
  let s := run [Click 2; ReachBottom; ResultProp None;
                ResultProp (Some Fixture.rerun); ReachBottom]
             (mount (Some Fixture.threeBlocks) false) in
  0 <= selectedBlockIndex s < Z.max 1 (blockCount s).
Proof.
  apply (index_stays_in_range (Some Fixture.threeBlocks) false
           [Click 2; ReachBottom; ResultProp None;
            ResultProp (Some Fixture.rerun); ReachBottom]).
  reflexivity.
Defined.

(** A pending target always has its own timer, the newest one, in
    flight. *)
Lemma step_pending_has_timer (s : State) (e : Event) :
  (forall m, pendingScrollToMessageId s = Some m ->
             last (scrollTimers s) = Some m) ->
  forall m, pendingScrollToMessageId (step s e) = Some m ->
            last (scrollTimers (step s e)) = Some m.
Proof.
  intros Inv m. unfold step, flushWatchers.
  set (h := handle e s).
  assert (scrollTimers h = scrollTimers s
          \/ pendingScrollToMessageId h = None) as Hh.
  { subst h. destruct e; simpl; try (now left).
    - left. unfold selectBlock. simpl.
      destruct (getBlockAtReversedIndex (result s) index) as [| |block];
        try reflexivity.
      destruct (List.find _ _); reflexivity.
    - left. unfold goToNextBlock.
      destruct (isBlockSwitching s); [reflexivity|].
      destruct (blockCount s =? 0); [reflexivity|].
      destruct (selectedBlockIndex s <? blockCount s - 1); reflexivity.
    - destruct (scrollTimers s) as [|x rest] eqn:Et;
        [left; now rewrite Et|right].
      unfold scrollTimerCallback.
      destruct (messageListMounted _); reflexivity.
    - left. destruct (unlockTimers s); reflexivity. }
  destruct (resultChanged e s); simpl.
  - destruct (decide _); simpl; discriminate.
  - destruct (decide _) as [Heq|Hne].
    + intros Hm. destruct Hh as [Ht|Hn]; [|congruence].
      rewrite Ht. apply Inv. congruence.
    + unfold onPendingScrollChange.
      destruct (pendingScrollToMessageId h) as [x|] eqn:Hp; simpl.
      * rewrite Hp. intros [= ->]. apply last_snoc.
      * rewrite Hp. discriminate.
Qed.

Lemma reachable_pending_has_timer
    (r : option FilterResult) (loading : bool) (es : list Event) (m : Z) :
  pendingScrollToMessageId (run es (mount r loading)) = Some m ->
  last (scrollTimers (run es (mount r loading))) = Some m.
Proof.
  revert m. unfold run.
  assert (forall m, pendingScrollToMessageId (mount r loading) = Some m ->
                    last (scrollTimers (mount r loading)) = Some m) as H0
    by (intros m; discriminate).
  revert H0. generalize (mount r loading).
  induction es as [|e es IH]; intros s Inv; [exact Inv|].
  simpl. apply IH. now apply step_pending_has_timer.
Qed.

Lemma scroll_timeout_step (s : State) (m : Z) (rest : list Z) :
  scrollTimers s = m :: rest ->
  scrollTimers (step s ScrollTimeout) = rest
  /\ pendingScrollToMessageId (step s ScrollTimeout) = None.
Proof.
  intros Ht. unfold step, flushWatchers, handle. rewrite Ht. simpl.
  unfold scrollTimerCallback.
  destruct (messageListMounted _); simpl;
    destruct (decide _); now split.
Qed.

Lemma drain_scroll_timers (timers : list Z) (s : State) :
  scrollTimers s = timers ->
  let s' := run (repeat ScrollTimeout (length timers)) s in
  scrollTimers s' = []
  /\ pendingScrollToMessageId s'
     = (if timers is [] then pendingScrollToMessageId s else None).
Proof.
  revert s. induction timers as [|m rest IH]; intros s Ht; simpl.
  - now split.
  - destruct (scroll_timeout_step s m rest Ht) as [Hrest Hnone].
    destruct (IH (step s ScrollTimeout) Hrest) as [Hnil Hp].
    split; [exact Hnil|]. rewrite Hp. now destruct rest.
Qed.

(** X3. In every reachable state the pending scroll target is either
    null or the id held by the newest 100 ms timer in flight; once the
    timers in flight have expired, the pending target is null and no
    timer remains, so a pending target never outlives its wait. *)
Theorem pending_target_is_cleared_by_its_timer
    (r : option FilterResult) (loading : bool) (es : list Event) :
  let s := run es (mount r loading) in
  let s' := run (repeat ScrollTimeout (length (scrollTimers s))) s in
  (forall m, pendingScrollToMessageId s = Some m ->
             last (scrollTimers s) = Some m)
  /\ pendingScrollToMessageId s' = None
  /\ scrollTimers s' = [].
Proof.
  intros s s'.
  assert (forall m, pendingScrollToMessageId s = Some m ->
                    last (scrollTimers s) = Some m) as Inv
    by (intros m; apply reachable_pending_has_timer).
  split; [exact Inv|].
  destruct (drain_scroll_timers (scrollTimers s) s eq_refl) as [Hnil Hp].
  fold s' in Hnil, Hp. split; [|exact Hnil]. rewrite Hp.
  destruct (scrollTimers s) eqn:Ht; [|reflexivity].
  destruct (pendingScrollToMessageId s) as [m|] eqn:E; [|reflexivity].
  specialize (Inv m eq_refl). discriminate.
Qed.

End Reachability.

(** ** Paging through the blocks *)

Section Paging.
Import Preview.

Lemma goToNextBlock_at_last (s : State) :
  selectedBlockIndex s = blockCount s - 1 -> goToNextBlock s = s.
Proof.
  intros H. unfold goToNextBlock.
  destruct (isBlockSwitching s); [reflexivity|].
  destruct (blockCount s =? 0); [reflexivity|].
  now rewrite H, Z.ltb_irrefl.
Qed.

Lemma run_ReachBottom_at_last (n : nat) (s : State) :
  selectedBlockIndex s = blockCount s - 1 ->
  run (repeat ReachBottom n) s = s.
Proof.
  intros H. induction n as [|n IH]; [reflexivity|].
  change (run (repeat ReachBottom (S n)) s)
    with (run (repeat ReachBottom n) (step s ReachBottom)).
  now rewrite step_ReachBottom, goToNextBlock_at_last.
Qed.

Lemma step_UnlockTimeout (s : State) :
  step s UnlockTimeout
  = match unlockTimers s with
    | S n => set_isBlockSwitching false (set_unlockTimers n s)
    | O => s
    end.
Proof.
  unfold step. apply flushWatchers_same_pending; [reflexivity|].
  simpl. destruct (unlockTimers s); reflexivity.
Qed.

(** One window moves the index by one, except on the last block. *)
Lemma debounceWindow_advances (n : nat) (s : State) :
  (1 <= n)%nat ->
  isBlockSwitching s = false ->
  unlockTimers s = 0%nat ->
  0 <= selectedBlockIndex s < blockCount s ->
  let s' := run (debounceWindow n) s in
  selectedBlockIndex s' = Z.min (selectedBlockIndex s + 1) (blockCount s - 1)
  /\ isBlockSwitching s' = false
  /\ unlockTimers s' = 0%nat
  /\ result s' = result s.
Proof.
  intros Hn Hidle Htim Hrange s'. subst s'. unfold debounceWindow.
  rewrite run_app.
  destruct (Z.eq_dec (selectedBlockIndex s) (blockCount s - 1)) as [Hlast|Hnot].
  - rewrite run_ReachBottom_at_last by exact Hlast.
    change (run [UnlockTimeout] s) with (step s UnlockTimeout).
    rewrite step_UnlockTimeout, Htim.
    repeat split; try assumption. lia.
  - assert (run (repeat ReachBottom n) s = goToNextBlock s) as ->.
    { destruct n as [|n]; [lia|].
      change (run (repeat ReachBottom (S n)) s)
        with (run (repeat ReachBottom n) (step s ReachBottom)).
      rewrite step_ReachBottom.
      apply run_ReachBottom_while_switching.
      rewrite goToNextBlock_accepted by (try assumption; lia).
      reflexivity. }
    change (run [UnlockTimeout] (goToNextBlock s))
      with (step (goToNextBlock s) UnlockTimeout).
    rewrite step_UnlockTimeout.
    rewrite goToNextBlock_accepted by (try assumption; lia).
    simpl. rewrite Htim. repeat split. lia.
Qed.

(** X4. Rate limit of continuous scrolling.  Starting Idle on a valid
    block, a sequence of debounce windows, each made of one or more
    reach-bottom triggers followed by the expiry of the 300 ms timer,
    moves the index forward by exactly one block per window until the
    last block is reached, where it stays; the machine is Idle again
    after each window. *)
Theorem one_block_per_debounce_window (ns : list nat) (s : State) :
  Forall (fun n => (1 <= n)%nat) ns ->
  isBlockSwitching s = false ->
  unlockTimers s = 0%nat ->
  0 <= selectedBlockIndex s < blockCount s ->
  let s' := run (concat (map debounceWindow ns)) s in
  selectedBlockIndex s'
  = Z.min (selectedBlockIndex s + Z.of_nat (length ns)) (blockCount s - 1)
  /\ isBlockSwitching s' = false
  /\ unlockTimers s' = 0%nat
  /\ result s' = result s.
Proof.
  intros Hns. revert s.
  induction Hns as [|n ns Hn _ IH]; intros s Hidle Htim Hrange; simpl.
  - repeat split; try assumption. lia.
  - rewrite run_app.
    destruct (debounceWindow_advances n s Hn Hidle Htim Hrange)
      as (Hidx & Hidle1 & Htim1 & Hres1).
    set (s1 := run (debounceWindow n) s) in *.
    assert (blockCount s1 = blockCount s) as Hc
      by now apply blockCount_result.
    destruct (IH s1 Hidle1 Htim1) as (Hidx2 & Hidle2 & Htim2 & Hres2);
      [rewrite Hc, Hidx; lia|].
    rewrite Hidx2, Hc, Hidx, Hres2, Hres1.
    repeat split; try assumption. lia.
Qed.

Lemma one_block_per_debounce_window_witness :
  selectedBlockIndex
    (run (concat (map debounceWindow [5; 1; 3; 2]%nat))
       (mount (Some Fixture.threeBlocks) false)) = 2.
Proof.
  apply (one_block_per_debounce_window [5; 1; 3; 2]%nat
           (mount (Some Fixture.threeBlocks) false)).
  - repeat constructor.
  - reflexivity.
  - reflexivity.
  - vm_compute. split; [discriminate|reflexivity].
Defined.

(** X8. An accepted advance shows the next older block: from row
    [i], not the last, the active block becomes the storage block
    [blocks[blockCount - 2 - i]], and the index pane is told to centre
    exactly the row that became active. *)
Theorem advance_shows_next_older_block (s : State) (r : FilterResult) :
  result s = Some r ->
  isBlockSwitching s = false ->
  0 <= selectedBlockIndex s < blockCount s - 1 ->
  let s' := step s ReachBottom in
  exists block,
    blocks r !! Z.to_nat (blockCount s - 2 - selectedBlockIndex s) = Some block
    /\ activeBlock s' = ref block
    /\ currentBlockMessages s' = map toChatRecordMessage (messages block)
    /\ last (blockListScrolls s') = Some (selectedBlockIndex s').
Proof.
  intros Hr Hidle Hrange s'. subst s'. rewrite step_ReachBottom.
  rewrite goToNextBlock_accepted by (try assumption; lia).
  assert (blockCount s = js_length (blocks r)) as Hc
    by (unfold blockCount; now rewrite Hr).
  destruct (getBlockAtReversedIndex_in_range r (selectedBlockIndex s + 1))
    as (block & Hsto & _ & Hget); [lia|].
  exists block. split.
  { rewrite <- Hsto, Hc. f_equal. lia. }
  assert (activeBlock
            {| result := result s; isLoading := isLoading s;
               selectedBlockIndex := selectedBlockIndex s + 1;
               isBlockSwitching := true;
               pendingScrollToMessageId := pendingScrollToMessageId s;
               unlockTimers := S (unlockTimers s);
               scrollTimers := scrollTimers s;
               blockListScrolls :=
                 blockListScrolls s ++ [selectedBlockIndex s + 1];
               messageListScrolls := messageListScrolls s |}
          = ref block) as Hact
    by (unfold activeBlock; simpl; now rewrite Hr).
  split; [exact Hact|]. split.
  - apply currentBlockMessages_of_block; [|exact Hact].
    unfold blockCount. simpl. rewrite Hr. lia.
  - simpl. apply last_snoc.
Qed.

Lemma advance_shows_next_older_block_witness :
  activeBlock (step (mount (Some Fixture.threeBlocks) false) ReachBottom)
  = ref Fixture.middle.
Proof.
  destruct (advance_shows_next_older_block
              (mount (Some Fixture.threeBlocks) false)
              Fixture.threeBlocks eq_refl eq_refl)
    as (block & Hsto & Hact & _).
  - vm_compute. split; [discriminate|reflexivity].
  - rewrite Hact. change (Some Fixture.middle = Some block) in Hsto.
    congruence.
Defined.

(** X7. When a result with at least one block replaces the previous
    one, the panel shows its newest block, the last one in storage
    order, whatever was selected before. *)
Theorem new_result_shows_newest_block
    (s : State) (r : FilterResult) (newestBlock : Block) :
  last (blocks r) = Some newestBlock ->
  let s' := step s (ResultProp (Some r)) in
  selectedBlockIndex s' = 0
  /\ activeBlock s' = ref newestBlock
  /\ currentBlockMessages s' = map toChatRecordMessage (messages newestBlock)
  /\ hitMessageIds s' =
       map FilterMessage.id
         (List.filter FilterMessage.isHit (messages newestBlock)).
Proof.
  intros Hlast s'.
  destruct (flushWatchers_result_index (ResultProp (Some r)) s
              (handle (ResultProp (Some r)) s)) as [Hres Hidx].
  fold (step s (ResultProp (Some r))) in Hres, Hidx. fold s' in Hres, Hidx.
  assert (resultChanged (ResultProp (Some r)) s = true) as Hchg
    by (simpl; now destruct (result s)).
  rewrite Hchg in Hidx. simpl in Hres.
  assert (blocks r <> []) as Hne by (intros E; now rewrite E in Hlast).
  assert (0 < js_length (blocks r)) as Hlen
    by (unfold js_length; destruct (blocks r); [contradiction|simpl; lia]).
  destruct (getBlockAtReversedIndex_in_range r 0) as (block & Hsto & _ & Hget);
    [lia|].
  assert (block = newestBlock) as ->.
  { rewrite last_lookup in Hlast. unfold js_length in Hsto.
    replace (Z.to_nat (Z.of_nat (length (blocks r)) - 1 - 0))
      with (Nat.pred (length (blocks r))) in Hsto by lia.
    congruence. }
  assert (activeBlock s' = ref newestBlock) as Hact
    by (unfold activeBlock; now rewrite Hres, Hidx).
  assert (blockCount s' <> 0) as Hnz
    by (unfold blockCount; rewrite Hres; lia).
  split; [exact Hidx|]. split; [exact Hact|].
  split; [now apply currentBlockMessages_of_block
         |now apply hitMessageIds_of_block].
Qed.

Lemma new_result_shows_newest_block_witness :
  activeBlock
    (step (run [Click 2] (mount (Some Fixture.rerun) false))
       (ResultProp (Some Fixture.threeBlocks)))
  = ref Fixture.newest.
Proof.
  apply (new_result_shows_newest_block
           (run [Click 2] (mount (Some Fixture.rerun) false))
           Fixture.threeBlocks Fixture.newest).
  reflexivity.
Defined.

End Paging.

(** ** Selection followed by its delayed scroll *)

Section SelectThenScroll.
Import Preview.

Lemma filter_hit_sublist (msgs : list FilterMessage.t) :
  map FilterMessage.id (List.filter FilterMessage.isHit msgs)
    `sublist_of` map ChatRecordMessage.id (map toChatRecordMessage msgs).
Proof.
  induction msgs as [|msg msgs IH]; simpl; [constructor|].
  destruct (FilterMessage.isHit msg); simpl.
  - now apply sublist_skip.
  - now apply sublist_cons.
Qed.

(** X6. In every state the highlighted ids are ids of displayed
    messages, in display order: [hitMessageIds] is a sublist of the ids
    of [currentBlockMessages]. *)
Theorem hit_ids_are_displayed_ids (s : State) :
  hitMessageIds s
    `sublist_of` map ChatRecordMessage.id (currentBlockMessages s).
Proof.
  unfold hitMessageIds, currentBlockMessages.
  destruct (blockCount s =? 0); [constructor|].
  destruct (getBlockAtReversedIndex (result s) (selectedBlockIndex s))
    as [| |block]; try constructor.
  apply filter_hit_sublist.
Qed.

Lemma step_Click_quiescent
    (s : State) (r : FilterResult) (i : Z) (block : Block)
    (m : FilterMessage.t) :
  result s = Some r ->
  scrollTimers s = [] ->
  pendingScrollToMessageId s = None ->
  getBlockAtReversedIndex (Some r) i = ref block ->
  List.find FilterMessage.isHit (messages block) = Some m ->
  step s (Click i) =
    {| result := result s; isLoading := isLoading s;
       selectedBlockIndex := i;
       isBlockSwitching := isBlockSwitching s;
       pendingScrollToMessageId := Some (FilterMessage.id m);
       unlockTimers := unlockTimers s;
       scrollTimers := [FilterMessage.id m];
       blockListScrolls := blockListScrolls s;
       messageListScrolls := messageListScrolls s |}.
Proof.
  intros Hr Ht Hp Hget Hfind.
  destruct s as [res load idx flag pend unl timers bscr mscr].
  simpl in *. subst res timers pend.
  unfold step, handle, selectBlock. simpl. rewrite Hget, Hfind.
  reflexivity.
Qed.

Lemma scroll_timeout_mounted (s : State) (m : Z) (rest : list Z) :
  scrollTimers s = m :: rest ->
  messageListMounted s = true ->
  let s' := step s ScrollTimeout in
  messageListScrolls s' = messageListScrolls s ++ [m]
  /\ pendingScrollToMessageId s' = None
  /\ scrollTimers s' = rest
  /\ selectedBlockIndex s' = selectedBlockIndex s
  /\ currentBlockMessages s' = currentBlockMessages s.
Proof.
  intros Ht Hmount s'. subst s'.
  unfold step, flushWatchers, handle. rewrite Ht. simpl.
  unfold scrollTimerCallback.
  change (messageListMounted (set_scrollTimers rest s))
    with (messageListMounted s).
  rewrite Hmount. simpl.
  destruct (decide _); now repeat split.
Qed.

(** X5. When nothing intervenes, the delayed scroll reaches the right
    block: from a state with no wait in flight, a click on a valid row
    whose block has a hit, followed by the expiry of its 100 ms timer,
    sends exactly one scroll command, for the first hit of the block
    now displayed, and leaves no pending target and no timer. *)
Theorem click_then_timeout_scrolls_to_first_hit
    (s : State) (r : FilterResult) (i firstHit : Z) :
  result s = Some r ->
  isLoading s = false ->
  scrollTimers s = [] ->
  pendingScrollToMessageId s = None ->
  0 <= i < blockCount s ->
  head (hitMessageIds (step s (Click i))) = Some firstHit ->
  let s' := run [Click i; ScrollTimeout] s in
  messageListScrolls s' = messageListScrolls s ++ [firstHit]
  /\ firstHit ∈ map ChatRecordMessage.id (currentBlockMessages s')
  /\ selectedBlockIndex s' = i
  /\ pendingScrollToMessageId s' = None
  /\ scrollTimers s' = [].
Proof.
  intros Hr Hload Ht Hp Hi Hhead s'.
  assert (blockCount s = js_length (blocks r)) as Hc
    by (unfold blockCount; now rewrite Hr).
  destruct (getBlockAtReversedIndex_in_range r i) as (block & _ & _ & Hget);
    [lia|].
  destruct (flushWatchers_projection (Click i) s (handle (Click i) s) eq_refl)
    as (Hres & Hidx & _).
  fold (step s (Click i)) in Hres, Hidx. simpl in Hres, Hidx.
  rewrite selectBlock_result in Hres. rewrite selectBlock_index in Hidx.
  assert (hitMessageIds (step s (Click i))
          = map FilterMessage.id
              (List.filter FilterMessage.isHit (messages block))) as Hhits.
  { apply hitMessageIds_of_block.
    - unfold blockCount. rewrite Hres, Hr. lia.
    - unfold activeBlock. now rewrite Hres, Hidx, Hr. }
  rewrite Hhits in Hhead.
  destruct (List.filter FilterMessage.isHit (messages block))
    as [|m hits] eqn:Hf; [discriminate|].
  simpl in Hhead. injection Hhead as Hm.
  assert (List.find FilterMessage.isHit (messages block) = Some m) as Hfind
    by (rewrite find_head_filter, Hf; reflexivity).
  assert (m ∈ messages block) as Hin.
  { apply list_elem_of_In.
    apply (proj1 (filter_In FilterMessage.isHit m (messages block))).
    rewrite Hf. now left. }
  subst s'. change (run [Click i; ScrollTimeout] s)
    with (step (step s (Click i)) ScrollTimeout).
  rewrite (step_Click_quiescent s r i block m Hr Ht Hp Hget Hfind).
  set (s1 := {| result := result s; isLoading := isLoading s;
                selectedBlockIndex := i;
                isBlockSwitching := isBlockSwitching s;
                pendingScrollToMessageId := Some (FilterMessage.id m);
                unlockTimers := unlockTimers s;
                scrollTimers := [FilterMessage.id m];
                blockListScrolls := blockListScrolls s;
                messageListScrolls := messageListScrolls s |}).
  assert (currentBlockMessages s1
          = map toChatRecordMessage (messages block)) as Hcur.
  { apply currentBlockMessages_of_block.
    - unfold blockCount. simpl. rewrite Hr. lia.
    - unfold activeBlock. simpl. now rewrite Hr. }
  assert (messageListMounted s1 = true) as Hmount.
  { unfold messageListMounted. rewrite Hcur. simpl. rewrite Hload, Hr. simpl.
    apply andb_true_iff. split.
    - apply negb_true_iff, Z.eqb_neq. lia.
    - apply Z.ltb_lt. unfold js_length. rewrite length_map.
      destruct (messages block); [inversion Hin|simpl; lia]. }
  destruct (scroll_timeout_mounted s1 (FilterMessage.id m) [] eq_refl Hmount)
    as (Hscr & Hpend & Htim & Hsel & Hcur').
  rewrite Hscr, Hpend, Htim, Hsel, Hcur', Hcur, <- Hm.
  repeat split.
  apply list_elem_of_In, in_map_iff. exists (toChatRecordMessage m).
  split; [reflexivity|]. apply in_map. now apply list_elem_of_In.
Qed.

Lemma click_then_timeout_scrolls_to_first_hit_witness :
  messageListScrolls
    (run [Click 0; ScrollTimeout] (mount (Some Fixture.threeBlocks) false))
  = [41].
Proof.
  apply (click_then_timeout_scrolls_to_first_hit
           (mount (Some Fixture.threeBlocks) false)
           Fixture.threeBlocks 0 41);
    try reflexivity.
  vm_compute. split; [discriminate|reflexivity].
Defined.

End SelectThenScroll.

(** ** Row labels *)

Section RowLabels.


Lemma last_with_default {A} (l : list A) (d x : A) :
  last l = Some x -> List.last l d = x.
Proof.
  induction l as [|a l IH]; [discriminate|].
  destruct l as [|b l]; intros H.
  - simpl in *. congruence.
  - change (List.last (b :: l) d = x). apply IH. exact H.
Qed.

Section Years.

Variable getFullYear : Z -> Z.
Hypothesis getFullYear_monotone :
  forall a b, a <= b -> getFullYear a <= getFullYear b.

(** X10. Checking only the first and the last block is enough: for a
    result whose blocks lie between the start of the first block and
    the end of the last one, and a calendar whose year never decreases
    with time, when [shouldShowYear] is false every timestamp inside
    every block falls in the year of the first block, so labels without
    the year are unambiguous. *)
Theorem year_hidden_means_single_year
    (s : Preview.State) (r : FilterResult) (first final : Block) :
  Preview.result s = Some r ->
  head (blocks r) = Some first ->
  last (blocks r) = Some final ->
  (forall b, b ∈ blocks r ->
     startTs first <= startTs b /\ endTs b <= endTs final) ->
  Preview.shouldShowYear getFullYear s = false ->
  forall b ts,
    b ∈ blocks r ->
    startTs b <= ts <= endTs b ->
    getFullYear (ts * 1000) = getFullYear (startTs first * 1000).
Proof.
  intros Hr Hhead Hlast Hchron Hshow b ts Hb Hts.
  unfold Preview.shouldShowYear in Hshow. rewrite Hr in Hshow.
  destruct (blocks r) as [|b0 bs] eqn:Hbs; [discriminate|].
  simpl in Hhead. injection Hhead as ->.
  assert (List.last (first :: bs) first = final) as Hl
    by now apply last_with_default.
  rewrite Hl in Hshow.
  apply negb_false_iff, Z.eqb_eq in Hshow.
  destruct (Hchron b Hb) as [Hlo Hhi].
  pose proof (getFullYear_monotone (startTs first * 1000) (ts * 1000)
                ltac:(lia)).
  pose proof (getFullYear_monotone (ts * 1000) (endTs final * 1000)
                ltac:(lia)).
  lia.
Qed.

End Years.

Lemma year_hidden_means_single_year_witness :
  let getFullYear := fun ms : Z => 1970 + ms / 31556952000 in
  getFullYear (1700000031 * 1000)
  = getFullYear (startTs Fixture.oldest * 1000).
Proof.
  intros getFullYear.
  apply (year_hidden_means_single_year getFullYear
           (fun a b H => proj1 (Z.add_le_mono_l _ _ 1970)
                           (Z.div_le_mono a b 31556952000 eq_refl H))
           (Preview.mount (Some Fixture.threeBlocks) false)
           Fixture.threeBlocks Fixture.oldest Fixture.newest
           eq_refl eq_refl eq_refl)
    with (b := Fixture.middle).
  - intros b Hb.
    apply list_elem_of_In in Hb.
    destruct Hb as [<-|[<-|[<-|[]]]]; simpl; lia.
  - reflexivity.
  - apply list_elem_of_In. right. left. reflexivity.
  - simpl. lia.
Defined.

End RowLabels.

(** ** Session picker: single toggles, frame and mirror *)

Section PickerMore.
Import SessionPanel.

(** X11. [toggleSession(id)] flips the membership of [id], leaves
    every other id as it was, and a second toggle of the same id gives
    back the set before the first. *)
Theorem toggleSession_flips (id : Z) (s : State) :
  let s' := toggleSession id s in
  isSelected id s' = negb (isSelected id s)
  /\ (forall other, other <> id -> isSelected other s' = isSelected other s)
  /\ selectedSet (toggleSession id s') = selectedSet s.
Proof.
  unfold toggleSession, isSelected. simpl.
  destruct (bool_decide (id ∈ selectedSet s)) eqn:E; simpl.
  - apply bool_decide_eq_true in E. split; [|split].
    + apply bool_decide_eq_false. rewrite elem_of_difference.
      intros [_ H]. apply H. now apply elem_of_singleton.
    + intros other Hne. apply bool_decide_ext.
      rewrite elem_of_difference, elem_of_singleton. tauto.
    + rewrite bool_decide_eq_false_2.
      * apply set_eq. intros x.
        rewrite elem_of_union, elem_of_difference, elem_of_singleton.
        split; [intros [[H _]| ->]; assumption|].
        intros H. destruct (decide (x = id)); tauto.
      * rewrite elem_of_difference, elem_of_singleton. tauto.
  - apply bool_decide_eq_false in E. split; [|split].
    + apply bool_decide_eq_true. rewrite elem_of_union, elem_of_singleton.
      now right.
    + intros other Hne. apply bool_decide_ext.
      rewrite elem_of_union, elem_of_singleton. tauto.
    + rewrite bool_decide_eq_true_2.
      * apply set_eq. intros x.
        rewrite elem_of_difference, elem_of_union, elem_of_singleton.
        split; [intros [[H|H] Hn]; [assumption|contradiction]|].
        intros H. split; [now left|]. intros ->. contradiction.
      * rewrite elem_of_union, elem_of_singleton. now right.
Qed.

Lemma selectDate_set (date : string) (s : State) :
  selectedSet (selectDate date s)
  = if forallb (fun id => bool_decide (id ∈ selectedSet s))
         (getSessionIdsForDate date s)
    then selectedSet s ∖ list_to_set (getSessionIdsForDate date s)
    else selectedSet s ∪ list_to_set (getSessionIdsForDate date s).
Proof.
  unfold selectDate. simpl.
  destruct (forallb _ _); [apply fold_delete_set|apply fold_add_set].
Qed.

(** X12. [selectDate(date)] touches the sessions of that date only:
    an id outside the group of the date is selected afterwards exactly
    when it was selected before. *)
Theorem selectDate_frame (date : string) (s : State) (id : Z) :
  id ∉ getSessionIdsForDate date s ->
  isSelected id (selectDate date s) = isSelected id s.
Proof.
  intros Hout. unfold isSelected. apply bool_decide_ext.
  rewrite selectDate_set.
  destruct (forallb _ _).
  - rewrite elem_of_difference, elem_of_list_to_set. tauto.
  - rewrite elem_of_union, elem_of_list_to_set. tauto.
Qed.

Lemma selectDate_frame_witness :
  isSelected 3 (selectDate "2024/1/1" (Fixture.picker {[3]}))
  = isSelected 3 (Fixture.picker {[3]}).
Proof.
  apply (selectDate_frame "2024/1/1" (Fixture.picker {[3]}) 3).
  intros H. apply list_elem_of_In in H. vm_compute in H.
  destruct H as [H|[H|[]]]; discriminate.
Defined.

(** X13. [selectDate(date)] never leaves the group of the date partly
    selected: after the call either every id of the group is selected
    or none is, whatever mixture was selected before. *)
Theorem selectDate_never_partial (date : string) (s : State) :
  let ids := getSessionIdsForDate date s in
  let s' := selectDate date s in
  (forall id, id ∈ ids -> isSelected id s' = true)
  \/ (forall id, id ∈ ids -> isSelected id s' = false).
Proof.
  intros ids s'. subst s'. unfold isSelected.
  destruct (forallb (fun id => bool_decide (id ∈ selectedSet s)) ids) eqn:E.
  - right. intros id Hin. apply bool_decide_eq_false.
    rewrite selectDate_set. fold ids. rewrite E.
    rewrite elem_of_difference, elem_of_list_to_set. tauto.
  - left. intros id Hin. apply bool_decide_eq_true.
    rewrite selectDate_set. fold ids. rewrite E.
    rewrite elem_of_union, elem_of_list_to_set. tauto.
Qed.

(** X14. The array written back after a mutation lists the selection
    set exactly, without duplicates, and feeding it to the watcher of
    [selectedIds] gives the same state again, so the write-back and the
    watcher do not chase each other.  An array bound by the parent may
    repeat ids; the watcher keeps each id once. *)
Theorem selectedIds_mirror (date : string) (id : Z) (s : State) :
  (forall s', s' = toggleSession id s \/ s' = selectDate date s ->
     NoDup (selectedIds s')
     /\ (forall x, x ∈ selectedIds s' <-> x ∈ selectedSet s')
     /\ watchSelectedIds (selectedIds s') s' = s')
  /\ (forall newIds x,
        isSelected x (watchSelectedIds newIds s) = js_includes newIds x).
Proof.
  split.
  - intros s' Hs'.
    assert (selectedIds s' = elements (selectedSet s')) as Hmirror
      by (destruct Hs' as [->| ->]; reflexivity).
    rewrite Hmirror. split; [apply NoDup_elements|].
    split; [intros x; apply elem_of_elements|].
    unfold watchSelectedIds. rewrite list_to_set_elements_L.
    destruct s' as [items set ids]. simpl in *. now subst ids.
  - intros newIds x. unfold isSelected, js_includes, watchSelectedIds. simpl.
    apply bool_decide_ext. apply elem_of_list_to_set.
Qed.

Lemma selectedIds_mirror_witness :
  let s' := selectDate "2024/1/1" (Fixture.picker {[3]}) in
  watchSelectedIds (selectedIds s') s' = s'.
Proof.
  destruct (selectedIds_mirror "2024/1/1" 3 (Fixture.picker {[3]}))
    as [H _].
  destruct (H (selectDate "2024/1/1" (Fixture.picker {[3]})))
    as (_ & _ & Hround); [now right|exact Hround].
Defined.

End PickerMore.

(** ** Session picker: the flattened list *)

Section FlatItemsProperties.
Import SessionPanel.

Variable toLocaleDateString : Z -> string.
Variable sortedKeys : gmap string (list ChatSession) -> list string.

(** Sorting the keys of an object yields each key once. *)
Hypothesis sortedKeys_NoDup : forall groups, NoDup (sortedKeys groups).
Hypothesis sortedKeys_keys :
  forall groups date, date ∈ sortedKeys groups <-> is_Some (groups !! date).

Local Abbreviation dateOf := (SessionPanel.dateOf toLocaleDateString).
Local Abbreviation groupByDate :=
  (SessionPanel.groupByDate toLocaleDateString).
Local Abbreviation computeFlatItems :=
  (SessionPanel.computeFlatItems toLocaleDateString sortedKeys).
Local Abbreviation sessionsOn :=
  (SessionPanel.sessionsOn toLocaleDateString).

Lemma group_fold_lookup
    (sessions : list ChatSession) (groups : gmap string (list ChatSession))
    (date : string) :
  fold_left
    (fun groups session =>
       <[dateOf session := default [] (groups !! dateOf session) ++ [session]]>
         groups)
    sessions groups !! date
  = match sessionsOn date sessions with
    | [] => groups !! date
    | found => Some (default [] (groups !! date) ++ found)
    end.
Proof.
  revert groups. induction sessions as [|session sessions IH];
    intros groups; simpl; [reflexivity|].
  rewrite IH. unfold SessionPanel.sessionsOn. simpl.
  destruct (decide (dateOf session = date)) as [E|N].
  - rewrite bool_decide_eq_true_2 by exact E.
    rewrite E, lookup_insert_eq. simpl.
    destruct (List.filter _ sessions); [reflexivity|].
    now rewrite <- app_assoc.
  - rewrite bool_decide_eq_false_2 by exact N.
    rewrite lookup_insert_ne by exact N. reflexivity.
Qed.

Lemma groupByDate_lookup (sessions : list ChatSession) (date : string) :
  groupByDate sessions !! date
  = match sessionsOn date sessions with
    | [] => None
    | found => Some found
    end.
Proof.
  unfold SessionPanel.groupByDate. rewrite group_fold_lookup.
  rewrite lookup_empty. reflexivity.
Qed.

Lemma group_default (sessions : list ChatSession) (date : string) :
  default [] (groupByDate sessions !! date) = sessionsOn date sessions.
Proof.
  rewrite groupByDate_lookup. now destruct (sessionsOn date sessions).
Qed.

Lemma session_rows_of (date d : string) (group : list ChatSession) :
  omap sessionId
    (List.filter (isSessionOf date)
       (map (fun session => SessionItem session d) group))
  = if decide (d = date) then map id group else [].
Proof.
  destruct (decide (d = date)) as [E|N];
    induction group as [|session group IH]; try reflexivity.
  - change (omap sessionId
              (if bool_decide (d = date)
               then SessionItem session d
                    :: List.filter (isSessionOf date)
                         (map (fun x => SessionItem x d) group)
               else List.filter (isSessionOf date)
                      (map (fun x => SessionItem x d) group))
            = id session :: map id group).
    rewrite bool_decide_eq_true_2 by exact E.
    change (id session
            :: omap sessionId
                 (List.filter (isSessionOf date)
                    (map (fun x => SessionItem x d) group))
            = id session :: map id group).
    now rewrite IH.
  - change (omap sessionId
              (if bool_decide (d = date)
               then SessionItem session d
                    :: List.filter (isSessionOf date)
                         (map (fun x => SessionItem x d) group)
               else List.filter (isSessionOf date)
                      (map (fun x => SessionItem x d) group))
            = []).
    rewrite bool_decide_eq_false_2 by exact N. exact IH.
Qed.

Lemma single_chunk {A} (dates : list string) (date : string) (f : string -> list A) :
  NoDup dates ->
  flat_map (fun d => if decide (d = date) then f d else []) dates
  = if decide (date ∈ dates) then f date else [].
Proof.
  induction 1 as [|d dates Hd Hnd IH]; simpl.
  - destruct (decide (date ∈ [])) as [H|_]; [inversion H|reflexivity].
  - rewrite IH. destruct (decide (d = date)) as [->|N].
    + destruct (decide (date ∈ dates)) as [H|_]; [contradiction|].
      destruct (decide (date ∈ date :: dates)) as [_|H];
        [apply app_nil_r|].
      exfalso. apply H. constructor.
    + simpl. destruct (decide (date ∈ dates)) as [H|H];
        destruct (decide (date ∈ d :: dates)) as [H'|H'];
        try reflexivity.
      * exfalso. apply H'. now constructor.
      * apply elem_of_cons in H' as [->|H']; contradiction.
Qed.

Lemma omap_filter_flat_map
    (date : string) (chunk : string -> list ListItem) (dates : list string) :
  omap sessionId (List.filter (isSessionOf date) (flat_map chunk dates))
  = flat_map
      (fun d => omap sessionId (List.filter (isSessionOf date) (chunk d)))
      dates.
Proof.
  induction dates as [|d dates IH]; simpl; [reflexivity|].
  rewrite List.filter_app, omap_app. now rewrite IH.
Qed.

(** X15. The group of a date is exactly what was loaded for that
    date: with [flatItems] computed from the loaded sessions,
    [getSessionIdsForDate(date)] returns the ids of the sessions whose
    date string is [date], in the order they were loaded, and the empty
    list for a date that has no session. *)
Theorem getSessionIdsForDate_computed
    (sessions : list ChatSession) (s : State) (date : string) :
  flatItems s = computeFlatItems sessions ->
  getSessionIdsForDate date s = map id (sessionsOn date sessions).
Proof.
  intros Hflat. unfold getSessionIdsForDate. rewrite Hflat.
  unfold SessionPanel.computeFlatItems.
  rewrite omap_filter_flat_map.
  erewrite flat_map_ext.
  2:{ intros d. simpl. rewrite session_rows_of, group_default.
      reflexivity. }
  rewrite (single_chunk _ date (fun d => map id (sessionsOn d sessions)))
    by apply sortedKeys_NoDup.
  destruct (decide _) as [Hin|Hout]; [reflexivity|].
  destruct (sessionsOn date sessions) as [|x l] eqn:E; [reflexivity|].
  exfalso. apply Hout, sortedKeys_keys.
  rewrite groupByDate_lookup, E. eauto.
Qed.

(** X16. Every date header of the computed list carries the number
    of sessions of its date, which is at least one, and that number is
    the size of the group [selectDate] acts on. *)
Theorem date_header_counts_its_sessions
    (sessions : list ChatSession) (s : State) (date : string) (n : Z) :
  flatItems s = computeFlatItems sessions ->
  DateItem date n ∈ flatItems s ->
  1 <= n
  /\ n = js_length (sessionsOn date sessions)
  /\ n = js_length (getSessionIdsForDate date s).
Proof.
  intros Hflat Hin.
  rewrite (getSessionIdsForDate_computed sessions s date Hflat).
  unfold js_length at 2. rewrite length_map. fold (js_length (sessionsOn date sessions)).
  assert (n = js_length (sessionsOn date sessions)
          /\ date ∈ sortedKeys (groupByDate sessions)) as [Hn Hkey].
  { rewrite Hflat in Hin. unfold SessionPanel.computeFlatItems in Hin.
    apply list_elem_of_In, in_flat_map in Hin as (d & Hd & Hhere).
    simpl in Hhere. destruct Hhere as [Heq|Hmap].
    - injection Heq as Hdate Hcount. subst d.
      rewrite group_default in Hcount.
      split; [now symmetry|now apply list_elem_of_In].
    - apply in_map_iff in Hmap as (x & Hx & _). discriminate. }
  split; [|split; exact Hn].
  apply sortedKeys_keys in Hkey as [group Hgroup].
  rewrite groupByDate_lookup in Hgroup. rewrite Hn.
  destruct (sessionsOn date sessions); [discriminate|].
  unfold js_length. simpl. lia.
Qed.

End FlatItemsProperties.

Lemma getSessionIdsForDate_computed_witness :
  let toLocaleDateString := fun ms : Z => js_toString (ms / 86400000) in
  let sortedKeys :=
    fun groups : gmap string (list SessionPanel.ChatSession) =>
      elements (dom groups) in
  let sessions := [Fixture.session 1; Fixture.session 2] in
  let s :=
    {| SessionPanel.flatItems :=
         SessionPanel.computeFlatItems toLocaleDateString sortedKeys sessions;
       SessionPanel.selectedSet := ∅;
       SessionPanel.selectedIds := [] |} in
  SessionPanel.getSessionIdsForDate "19675" s = [1; 2].
Proof.
  intros toLocaleDateString sortedKeys sessions s.
  rewrite (getSessionIdsForDate_computed toLocaleDateString sortedKeys
             (fun groups => NoDup_elements (dom groups))
             (fun groups date =>
                iff_trans (elem_of_elements (dom groups) date)
                  (elem_of_dom groups date))
             sessions s "19675" eq_refl).
  reflexivity.
Defined.

Lemma date_header_counts_its_sessions_witness :
  let toLocaleDateString := fun ms : Z => js_toString (ms / 86400000) in
  let sortedKeys :=
    fun groups : gmap string (list SessionPanel.ChatSession) =>
      elements (dom groups) in
  let sessions := [Fixture.session 1; Fixture.session 2] in
  let s :=
    {| SessionPanel.flatItems :=
         SessionPanel.computeFlatItems toLocaleDateString sortedKeys sessions;
       SessionPanel.selectedSet := ∅;
       SessionPanel.selectedIds := [] |} in
  SessionPanel.DateItem "19675" 2 ∈ SessionPanel.flatItems s
  /\ 2 = js_length (SessionPanel.getSessionIdsForDate "19675" s).
Proof.
  intros toLocaleDateString sortedKeys sessions s.
  assert (SessionPanel.DateItem "19675" 2 ∈ SessionPanel.flatItems s) as Hin
    by (apply list_elem_of_In; vm_compute; left; reflexivity).
  split; [exact Hin|].
  apply (date_header_counts_its_sessions toLocaleDateString sortedKeys
           (fun groups => NoDup_elements (dom groups))
           (fun groups date =>
              iff_trans (elem_of_elements (dom groups) date)
                (elem_of_dom groups date))
           sessions s "19675" 2 eq_refl Hin).
Defined.

(** ** Condition panel *)

Section Conditions.
Import ConditionPanel.

Variable trim : string -> string.

Lemma filter_out_absent {A} `{EqDecision A} (x : A) (l : list A) :
  x ∉ l -> List.filter (fun y => negb (bool_decide (y = x))) l = l.
Proof.
  induction l as [|a l IH]; intros Hout; [reflexivity|]. simpl.
  rewrite bool_decide_eq_false_2.
  - simpl. f_equal. apply IH. intros H. apply Hout. now constructor.
  - intros ->. apply Hout. constructor.
Qed.

Lemma elem_of_filter_out {A} `{EqDecision A} (x y : A) (l : list A) :
  y ∈ List.filter (fun z => negb (bool_decide (z = x))) l
  <-> y ∈ l /\ y <> x.
Proof.
  rewrite !list_elem_of_In, filter_In, negb_true_iff.
  rewrite bool_decide_eq_false. reflexivity.
Qed.

(** X17. The keyword list stays free of duplicates and of the empty
    keyword: if it is so before, it is so after [addKeyword], after a
    key press in the input and after [removeKeyword], whatever was
    typed. *)
Theorem keywords_stay_distinct_and_nonempty
    (s : State) (kw key : string) :
  NoDup (keywords s) ->
  EmptyString ∉ keywords s ->
  forall s',
    s' = addKeyword trim s \/ s' = handleKeywordKeydown trim key s
      \/ s' = removeKeyword kw s ->
    NoDup (keywords s') /\ EmptyString ∉ keywords s'.
Proof.
  intros Hnd Hne.
  assert (NoDup (keywords (addKeyword trim s))
          /\ EmptyString ∉ keywords (addKeyword trim s)) as Hadd.
  { unfold addKeyword, js_includes.
    destruct (bool_decide (trim (keywordInput s) = EmptyString)) eqn:E1;
      simpl; [now split|].
    destruct (bool_decide (trim (keywordInput s) ∈ keywords s)) eqn:E2;
      simpl; [now split|].
    apply bool_decide_eq_false in E1, E2. split.
    - apply NoDup_app. split; [exact Hnd|]. split.
      + intros x Hx Hx'. apply list_elem_of_singleton in Hx'. now subst x.
      + apply NoDup_singleton.
    - rewrite elem_of_app, list_elem_of_singleton. intros [H|H];
        [contradiction|]. now apply E1. }
  intros s' [->|[->| ->]].
  - exact Hadd.
  - unfold handleKeywordKeydown. destruct (bool_decide _); [exact Hadd|].
    now split.
  - unfold removeKeyword. simpl. split.
    + now apply NoDup_ListNoDup, List.NoDup_filter, NoDup_ListNoDup.
    + rewrite elem_of_filter_out. tauto.
Qed.

(** X18. Adding a new, non-blank keyword appends it and empties the
    input; removing it again gives back the list as it was, order
    included.  [removeKeyword(kw)] removes [kw] and nothing else. *)
Theorem add_then_remove_keyword (s : State) :
  let kw := trim (keywordInput s) in
  kw <> EmptyString ->
  kw ∉ keywords s ->
  keywords (addKeyword trim s) = keywords s ++ [kw]
  /\ keywordInput (addKeyword trim s) = EmptyString
  /\ keywords (removeKeyword kw (addKeyword trim s)) = keywords s
  /\ (forall other k,
        k ∈ keywords (removeKeyword other s)
        <-> k ∈ keywords s /\ k <> other).
Proof.
  intros kw Hne Hout.
  assert (addKeyword trim s
          = {| keywords := keywords s ++ [kw]; senderIds := senderIds s;
               keywordInput := EmptyString |}) as ->.
  { unfold addKeyword, js_includes. fold kw.
    rewrite bool_decide_eq_false_2 by exact Hne.
    rewrite bool_decide_eq_false_2 by exact Hout. reflexivity. }
  simpl. split; [reflexivity|]. split; [reflexivity|]. split.
  - rewrite List.filter_app, filter_out_absent by exact Hout. simpl.
    rewrite bool_decide_eq_true_2 by reflexivity. simpl. apply app_nil_r.
  - intros other k. apply elem_of_filter_out.
Qed.

(** X19. [toggleMember(id)] flips whether [id] is among the senders
    and leaves the other senders as they were; a list without
    duplicates stays so; toggling twice an id that was absent gives
    back the list as it was. *)
Theorem toggleMember_flips (memberId : Z) (s : State) :
  let s' := toggleMember memberId s in
  js_includes (senderIds s') memberId
  = negb (js_includes (senderIds s) memberId)
  /\ (forall other, other <> memberId ->
        js_includes (senderIds s') other = js_includes (senderIds s) other)
  /\ (NoDup (senderIds s) -> NoDup (senderIds s'))
  /\ (js_includes (senderIds s) memberId = false ->
      senderIds (toggleMember memberId s') = senderIds s).
Proof.
  unfold toggleMember, js_includes.
  destruct (bool_decide (memberId ∈ senderIds s)) eqn:E; simpl.
  - apply bool_decide_eq_true in E. repeat split.
    + apply bool_decide_eq_false. rewrite elem_of_filter_out. tauto.
    + intros other Hne. apply bool_decide_ext.
      rewrite elem_of_filter_out. tauto.
    + intros Hnd.
      now apply NoDup_ListNoDup, List.NoDup_filter, NoDup_ListNoDup.
    + discriminate.
  - apply bool_decide_eq_false in E. repeat split.
    + apply bool_decide_eq_true. rewrite elem_of_app, list_elem_of_singleton.
      now right.
    + intros other Hne. apply bool_decide_ext.
      rewrite elem_of_app, list_elem_of_singleton. tauto.
    + intros Hnd. apply NoDup_app. split; [exact Hnd|]. split.
      * intros x Hx Hx'. apply list_elem_of_singleton in Hx'. now subst x.
      * apply NoDup_singleton.
    + intros _. rewrite bool_decide_eq_true_2
        by (rewrite elem_of_app, list_elem_of_singleton; now right).
      simpl. rewrite List.filter_app, filter_out_absent by exact E. simpl.
      rewrite bool_decide_eq_true_2 by reflexivity. apply app_nil_r.
Qed.

End Conditions.

Lemma keywords_stay_distinct_and_nonempty_witness :
  let s := {| ConditionPanel.keywords := ["rocq"];
              ConditionPanel.senderIds := [];
              ConditionPanel.keywordInput := "rocq" |} in
  NoDup (ConditionPanel.keywords (ConditionPanel.addKeyword (fun x => x) s)).
Proof.
  intros s.
  destruct (keywords_stay_distinct_and_nonempty (fun x => x) s "rocq" "Enter")
    with (s' := ConditionPanel.addKeyword (fun x => x) s) as [H _].
  - repeat constructor. intros H. inversion H.
  - intros H. apply list_elem_of_In in H. destruct H as [H|[]]. discriminate.
  - now left.
  - exact H.
Defined.

Lemma add_then_remove_keyword_witness :
  let s := {| ConditionPanel.keywords := ["rocq"];
              ConditionPanel.senderIds := [];
              ConditionPanel.keywordInput := "stdpp" |} in
  ConditionPanel.keywords
    (ConditionPanel.removeKeyword "stdpp"
       (ConditionPanel.addKeyword (fun x => x) s)) = ["rocq"].
Proof.
  intros s.
  destruct (add_then_remove_keyword (fun x => x) s) as (_ & _ & H & _).
  - discriminate.
  - intros H. apply list_elem_of_In in H. destruct H as [H|[]]. discriminate.
  - exact H.
Defined.

(** ** Running a filter *)

Section FilterRun.
Import FilterTab.

Lemma canExecuteFilter_idle (s : State) :
  canExecuteFilter s = true -> isFiltering s = false.
Proof.
  unfold canExecuteFilter. now destruct (isFiltering s).
Qed.

Lemma filter_step_invariant (s : State) (e : Event) :
  (isFiltering s = true -> filterResult s = None) ->
  length (inFlight s) = (if isFiltering s then 1 else 0)%nat ->
  (isFiltering (step s e) = true -> filterResult (step s e) = None)
  /\ length (inFlight (step s e))
     = (if isFiltering (step s e) then 1 else 0)%nat.
Proof.
  intros Hres Hlen.
  assert ((isFiltering (handle e s) = true ->
           filterResult (handle e s) = None)
          /\ length (inFlight (handle e s))
             = (if isFiltering (handle e s) then 1 else 0)%nat) as Hh.
  { destruct e; simpl; try (split; assumption).
    - destruct (canExecuteFilter s) eqn:C; [|split; assumption].
      apply canExecuteFilter_idle in C.
      unfold executeFilter.
      destruct (currentSessionId s) as [sid|]; [|split; assumption].
      destruct (bool_decide (sid = EmptyString)); [split; assumption|].
      rewrite C in Hlen.
      simpl. destruct (filterMode s); simpl.
      + rewrite length_app, Hlen. now split.
      + destruct (js_length (selectedSessionIds s) =? 0); simpl.
        * now split.
        * rewrite length_app, Hlen. now split.
    - unfold settle. destruct (inFlight s) as [|req rest] eqn:E;
        [split; [exact Hres|now rewrite E]|].
      destruct (isFiltering s); simpl in Hlen; [|discriminate].
      injection Hlen as Hrest. destruct outcome; simpl; now split.
    - unfold loadHistoryCondition.
      destruct mode, historyFilter, historyIds; simpl; split; assumption.
    - unfold openLocalAnalysis. destruct (filterResult s) as [r|] eqn:R;
        [|split; [now rewrite R|assumption]].
      destruct (js_length (blocks r) =? 0); simpl;
        split; try assumption; now rewrite R. }
  unfold step. simpl. destruct (mode_eqb _ _); [exact Hh|].
  destruct Hh as [_ Hl]. simpl. now split.
Qed.

(** X20. The tab never hands the preview a result while a filter is
    running: in every state reachable from start-up, [isFiltering]
    implies that [filterResult] is null, so the token estimate is 0
    and green, and exactly one call is awaited while filtering and
    none otherwise. *)
Theorem no_result_while_filtering
    (sessionId : option string) (es : list Event) :
  let s := run es (init sessionId) in
  (isFiltering s = true ->
     filterResult s = None
     /\ estimatedTokens (filterResult s) = 0
     /\ tokenStatus (filterResult s) = green)
  /\ length (inFlight s) = (if isFiltering s then 1 else 0)%nat.
Proof.
  intros s.
  assert ((isFiltering s = true -> filterResult s = None)
          /\ length (inFlight s) = (if isFiltering s then 1 else 0)%nat)
    as [Hres Hlen].
  { subst s. unfold run.
    assert ((isFiltering (init sessionId) = true ->
             filterResult (init sessionId) = None)
            /\ length (inFlight (init sessionId))
               = (if isFiltering (init sessionId) then 1 else 0)%nat) as H0
      by (now split).
    revert H0. generalize (init sessionId).
    induction es as [|e es IH]; intros s0 H0; [exact H0|].
    simpl. apply IH. destruct H0. now apply filter_step_invariant. }
  split; [|exact Hlen].
  intros F. rewrite (Hres F). now repeat split.
Qed.

Lemma execute_accepted (s : State) (sid : string) :
  canExecuteFilter s = true ->
  currentSessionId s = Some sid ->
  sid <> EmptyString ->
  inFlight s = [] ->
  exists req,
    step s ClickExecute
    = set_inFlight [req] (set_filterResult None (set_isFiltering true s)).
Proof.
  intros Hcan Hsid Hne Hfl.
  destruct s as [cur mode cf ids res filt hist modal fl].
  simpl in Hsid, Hfl. subst cur fl.
  unfold step, handle. rewrite Hcan.
  unfold executeFilter. simpl.
  rewrite bool_decide_eq_false_2 by exact Hne.
  unfold canExecuteFilter in Hcan. simpl in Hcan.
  destruct filt; [discriminate|].
  destruct mode; simpl.
  - eexists. reflexivity.
  - apply Z.ltb_lt in Hcan.
    destruct (Z.eqb_spec (js_length ids) 0); [lia|].
    simpl. eexists. reflexivity.
Qed.

(** X21. One run of the filter.  When the execute button is enabled
    and a session is open, a click clears the shown result and awaits
    one call; when the call settles, a fulfilled call leaves its
    result and a rejected call leaves no result, the previous result
    included, and the tab is no longer filtering. *)
Theorem execute_then_settle
    (s : State) (sid : string) (outcome : option FilterResult) :
  canExecuteFilter s = true ->
  currentSessionId s = Some sid ->
  sid <> EmptyString ->
  inFlight s = [] ->
  let s1 := step s ClickExecute in
  let s2 := step s1 (Settled outcome) in
  (isFiltering s1 = true /\ filterResult s1 = None
   /\ length (inFlight s1) = 1%nat)
  /\ filterResult s2 = outcome
  /\ isFiltering s2 = false
  /\ inFlight s2 = []
  /\ canExecuteFilter s2 = true.
Proof.
  intros Hcan Hsid Hne Hfl s1 s2.
  destruct (execute_accepted s sid Hcan Hsid Hne Hfl) as [req Hs1].
  subst s2 s1. rewrite Hs1.
  split; [now repeat split|].
  destruct s as [cur mode cf ids res filt hist modal fl].
  unfold canExecuteFilter in Hcan. simpl in Hcan.
  destruct filt; [discriminate|].
  unfold step, settle, canExecuteFilter. simpl.
  destruct mode, outcome; simpl; repeat split; exact Hcan.
Qed.

Lemma execute_then_settle_witness :
  let s := step (init (Some "chat-1")) (SelectedIdsModel [7]) in
  let s := step s (ClickMode session) in
  filterResult
    (step (step s ClickExecute) (Settled (Some Fixture.rerun)))
  = Some Fixture.rerun.
Proof.
  apply (execute_then_settle
           (step (step (init (Some "chat-1")) (SelectedIdsModel [7]))
              (ClickMode session))
           "chat-1" (Some Fixture.rerun));
    [reflexivity|reflexivity|discriminate|reflexivity].
Defined.

(** X22. A call that settles after the mode was switched still
    installs its result: the mode watcher clears the result when the
    mode changes, but the awaited call is not abandoned, so the preview
    then shows a result computed for the other mode. *)
Theorem result_installed_after_mode_switch
    (s : State) (sid : string) (mode : FilterMode) (r : FilterResult) :
  canExecuteFilter s = true ->
  currentSessionId s = Some sid ->
  sid <> EmptyString ->
  inFlight s = [] ->
  let s' := run [ClickExecute; ClickMode mode; Settled (Some r)] s in
  filterResult s' = Some r
  /\ filterMode s' = mode
  /\ isFiltering s' = false.
Proof.
  intros Hcan Hsid Hne Hfl s'. subst s'.
  change (run [ClickExecute; ClickMode mode; Settled (Some r)] s)
    with (step (step (step s ClickExecute) (ClickMode mode))
            (Settled (Some r))).
  destruct (execute_accepted s sid Hcan Hsid Hne Hfl) as [req ->].
  destruct s as [cur old cf ids res filt hist modal fl].
  unfold step, settle. simpl.
  destruct mode, old; simpl; now repeat split.
Qed.

Lemma result_installed_after_mode_switch_witness :
  let s := step (init (Some "chat-1")) (SelectedIdsModel [7]) in
  let s := step s (ClickMode session) in
  let s' := run [ClickExecute; ClickMode condition;
                 Settled (Some Fixture.rerun)] s in
  filterMode s' = condition /\ filterResult s' = Some Fixture.rerun.
Proof.
  destruct (result_installed_after_mode_switch
              (step (step (init (Some "chat-1")) (SelectedIdsModel [7]))
                 (ClickMode session))
              "chat-1" condition Fixture.rerun)
    as (Hres & Hmode & _);
    [reflexivity|reflexivity|discriminate|reflexivity|].
  split; [exact Hmode|exact Hres].
Defined.

End FilterRun.

(** ** Updater *)

Section UpdaterProperties.
Import Updater.

Variable Number : string -> jsnumber.

Lemma js_gt_Finite (x y : Q) :
  js_gt (Finite x) (Finite y) = true <-> (y < x)%Q.
Proof.
  simpl. rewrite Qlt_alt, <- (Qcompare_antisym x y).
  destruct (x ?= y)%Q; simpl; split; congruence.
Qed.

Lemma js_strictEq_Finite (x y : Q) :
  js_strictEq (Finite x) (Finite y) = true <-> (x == y)%Q.
Proof.
  simpl. rewrite Qeq_alt. destruct (x ?= y)%Q; split; congruence.
Qed.

Lemma js_gt_irrefl (a : jsnumber) : js_gt a a = false.
Proof.
  destruct a; try reflexivity.
  apply not_true_is_false. rewrite js_gt_Finite. apply Qlt_irrefl.
Qed.

Lemma js_gt_asym (a b : jsnumber) :
  js_gt a b = true ->
  js_gt b a = false /\ js_strictEq a b = false /\ js_strictEq b a = false.
Proof.
  destruct a as [| |x|], b as [| |y|]; try discriminate;
    try (intros _; now repeat split).
  rewrite js_gt_Finite. intros H.
  repeat split; apply not_true_is_false.
  - rewrite js_gt_Finite. intros H'. apply (Qlt_irrefl x).
    now apply Qlt_trans with y.
  - rewrite js_strictEq_Finite. intros E. rewrite E in H.
    now apply Qlt_irrefl in H.
  - rewrite js_strictEq_Finite. intros E. rewrite E in H.
    now apply Qlt_irrefl in H.
Qed.

Lemma js_strictEq_no_gt (a b : jsnumber) :
  js_strictEq a b = true -> js_gt a b = false /\ js_gt b a = false.
Proof.
  destruct a as [| |x|], b as [| |y|]; try discriminate;
    try (intros _; now split).
  rewrite js_strictEq_Finite. intros E.
  split; apply not_true_is_false; rewrite js_gt_Finite, E;
    apply Qlt_irrefl.
Qed.

Lemma js_strictEq_sym (a b : jsnumber) : js_strictEq a b = js_strictEq b a.
Proof.
  destruct a as [| |x|], b as [| |y|]; try reflexivity. simpl.
  rewrite <- (Qcompare_antisym x y). now destruct (x ?= y)%Q.
Qed.

Lemma js_gt_trans (a b c : jsnumber) :
  js_gt a b = true -> js_gt b c = true -> js_gt a c = true.
Proof.
  destruct a as [| |x|], b as [| |y|], c as [| |z|];
    try discriminate; try reflexivity.
  rewrite !js_gt_Finite. intros H1 H2. now apply Qlt_trans with y.
Qed.

Lemma js_gt_strictEq (a b c : jsnumber) :
  js_gt a b = true -> js_strictEq b c = true -> js_gt a c = true.
Proof.
  destruct a as [| |x|], b as [| |y|], c as [| |z|];
    try discriminate; try reflexivity.
  rewrite !js_gt_Finite, js_strictEq_Finite. intros H E. now rewrite <- E.
Qed.

Lemma js_strictEq_gt (a b c : jsnumber) :
  js_strictEq a b = true -> js_gt b c = true -> js_gt a c = true.
Proof.
  destruct a as [| |x|], b as [| |y|], c as [| |z|];
    try discriminate; try reflexivity.
  rewrite !js_gt_Finite, js_strictEq_Finite. intros E H. now rewrite E.
Qed.

Lemma js_strictEq_trans (a b c : jsnumber) :
  js_strictEq a b = true -> js_strictEq b c = true ->
  js_strictEq a c = true.
Proof.
  destruct a as [| |x|], b as [| |y|], c as [| |z|];
    try discriminate; try reflexivity.
  rewrite !js_strictEq_Finite. intros E1 E2. now rewrite E1.
Qed.

(** The comparison as a predicate on the two leading numbers. *)
Lemma isMajorOrMinorUpdate_spec (current latest : string) :
  isMajorOrMinorUpdate Number current latest = true
  <-> let c := map Number (split_dots current) in
      let l := map Number (split_dots latest) in
      js_gt (element l 0) (element c 0) = true
      \/ (js_strictEq (element l 0) (element c 0) = true
          /\ js_gt (element l 1) (element c 1) = true).
Proof.
  unfold isMajorOrMinorUpdate. simpl.
  destruct (js_gt _ _); [split; [now left|reflexivity]|].
  destruct (js_strictEq _ _); simpl.
  - destruct (js_gt _ _); [split; [now right|reflexivity]|].
    split; [discriminate|]. intros [H|[_ H]]; discriminate.
  - split; [discriminate|]. intros [H|[H _]]; discriminate.
Qed.

Lemma element_take2 (la lb : list string) (i : nat) :
  take 2 la = take 2 lb ->
  (i < 2)%nat ->
  element (map Number la) i = element (map Number lb) i.
Proof.
  intros H Hi. unfold element.
  assert (la !! i = lb !! i) as E.
  { rewrite <- (lookup_take_lt la 2 i), <- (lookup_take_lt lb 2 i) by lia.
    now rewrite H. }
  change (map Number la) with (Number <$> la).
  change (map Number lb) with (Number <$> lb).
  now rewrite !list_lookup_fmap, E.
Qed.

(** X23. [isMajorOrMinorUpdate] is a strict order on version strings
    that looks at the first two dot-separated numbers only: no version
    is an update of itself, two versions are never updates of each
    other, updates chain, and a version with the same first two
    components, a patch release for one, is not an update.  This holds
    whatever [Number] makes of the components, [NaN] included. *)
Theorem isMajorOrMinorUpdate_strict_order (a b c : string) :
  isMajorOrMinorUpdate Number a a = false
  /\ (isMajorOrMinorUpdate Number a b = true ->
      isMajorOrMinorUpdate Number b a = false)
  /\ (isMajorOrMinorUpdate Number a b = true ->
      isMajorOrMinorUpdate Number b c = true ->
      isMajorOrMinorUpdate Number a c = true)
  /\ (take 2 (split_dots a) = take 2 (split_dots b) ->
      isMajorOrMinorUpdate Number a b = false).
Proof.
  assert (forall x y,
            take 2 (split_dots x) = take 2 (split_dots y) ->
            isMajorOrMinorUpdate Number x y = false) as Hsame.
  { intros x y H. apply not_true_is_false.
    rewrite isMajorOrMinorUpdate_spec. simpl.
    rewrite (element_take2 _ _ 0%nat H), (element_take2 _ _ 1%nat H) by lia.
    rewrite !js_gt_irrefl. intros [E|[_ E]]; discriminate. }
  split; [now apply Hsame|]. split; [|split; [|apply Hsame]].
  - rewrite isMajorOrMinorUpdate_spec. simpl. intros Hab.
    apply not_true_is_false. rewrite isMajorOrMinorUpdate_spec. simpl.
    intros Hba. destruct Hab as [H|[E H]].
    + apply js_gt_asym in H as (H1 & H2 & H3).
      destruct Hba as [H'|[E' _]]; congruence.
    + apply js_gt_asym in H as (H1 & _).
      apply js_strictEq_no_gt in E as (E1 & E2).
      destruct Hba as [H'|[_ H']]; congruence.
  - rewrite !isMajorOrMinorUpdate_spec. simpl. intros Hab Hbc.
    destruct Hab as [H1|[E1 H1]], Hbc as [H2|[E2 H2]].
    + left. now apply js_gt_trans with (element (map Number (split_dots b)) 0).
    + left. now apply js_strictEq_gt with
               (element (map Number (split_dots b)) 0).
    + left. now apply js_gt_strictEq with
               (element (map Number (split_dots b)) 0).
    + right. split.
      * now apply js_strictEq_trans with
               (element (map Number (split_dots b)) 0).
      * now apply js_gt_trans with (element (map Number (split_dots b)) 1).
Qed.

Variable appVersion : string.

(** X24. Without a manual check the updater stays quiet about patch
    releases: as long as [setManualCheck(true)] is never called, every
    version offered in an update dialog is a major or minor update of
    the running version, and the message that the application is up to
    date is never sent. *)
Theorem automatic_checks_offer_major_or_minor_only (es : list Event) :
  Forall (fun e => e <> SetManualCheck true) es ->
  let s := run Number appVersion es start in
  isManualCheck s = false
  /\ latestToasts s = 0%nat
  /\ Forall (fun version =>
               isMajorOrMinorUpdate Number appVersion version = true)
       (updateDialogs s).
Proof.
  intros Hes. simpl. unfold run.
  assert (isManualCheck start = false
          /\ latestToasts start = 0%nat
          /\ Forall (fun version =>
                       isMajorOrMinorUpdate Number appVersion version = true)
               (updateDialogs start)) as H0
    by (repeat split; constructor).
  revert H0. generalize start.
  induction Hes as [|e es He _ IH]; intros s Inv; [exact Inv|].
  simpl. apply IH. destruct Inv as (Hman & Htoast & Hdlg).
  destruct e as [value| version | | |]; simpl.
  - destruct value; [contradiction|]. now repeat split.
  - unfold onUpdateAvailable.
    destruct (showUpdateMessageBox s); [now repeat split|].
    rewrite Hman. simpl.
    destruct (isMajorOrMinorUpdate Number appVersion version) eqn:E; simpl.
    + repeat split; [exact Htoast|].
      apply Forall_app. split; [exact Hdlg|]. now constructor.
    + now repeat split.
  - now repeat split.
  - unfold onUpdateNotAvailable.
    destruct (isFirstShow s); simpl; [now repeat split|].
    rewrite Hman. now repeat split.
  - now repeat split.
Qed.

End UpdaterProperties.

Lemma automatic_checks_offer_major_or_minor_only_witness :
  Updater.updateDialogs
    (Updater.run (fun _ => Updater.NaN) "1.2.3"
       [Updater.UpdateNotAvailable; Updater.UpdateAvailable "1.2.4"]
       Updater.start) = [].
Proof.
  destruct (automatic_checks_offer_major_or_minor_only
              (fun _ => Updater.NaN) "1.2.3"
              [Updater.UpdateNotAvailable; Updater.UpdateAvailable "1.2.4"])
    as (_ & _ & H).
  - repeat constructor; discriminate.
  - reflexivity.
Defined.

(** ** Remote preset groups *)

Section PresetGroups.
Import ImportPreset.

Variable RemotePresetData : Type.
Variable chatType : RemotePresetData -> option string.

Lemma filter_sublist {A} (f : A -> bool) (l : list A) :
  List.filter f l `sublist_of` l.
Proof.
  induction l as [|a l IH]; simpl; [constructor|].
  destruct (f a); [now apply sublist_skip|now apply sublist_cons].
Qed.

(** X25. The three groups split the presets by chat type: their keys
    are common, group and private in that order, each group keeps the
    order of the fetched list, and taken together the groups contain
    every preset whose chat type is absent, empty, common, group or
    private exactly once, and no preset of any other chat type. *)
Theorem presetGroups_partition (remotePresets : list RemotePresetData) :
  let groups := presetGroups RemotePresetData chatType remotePresets in
  map (key RemotePresetData) groups = ["common"; "group"; "private"]
  /\ Forall (fun g => presets RemotePresetData g `sublist_of` remotePresets)
       groups
  /\ concat (map (presets RemotePresetData) groups)
       ≡ₚ List.filter (knownChatType RemotePresetData chatType)
            remotePresets.
Proof.
  simpl. split; [reflexivity|]. split.
  { repeat constructor; apply filter_sublist. }
  rewrite app_nil_r.
  induction remotePresets as [|p l IH]; [reflexivity|].
  simpl. unfold knownChatType, hasChatType, noChatType in *.
  destruct (chatType p) as [t|]; simpl.
  - destruct (decide (t = "common")) as [->|N1];
      [simpl; now apply Permutation_skip|].
    rewrite (bool_decide_eq_false_2 (t = "common")) by exact N1.
    destruct (decide (t = EmptyString)) as [->|N0];
      [simpl; now apply Permutation_skip|].
    rewrite (bool_decide_eq_false_2 (t = EmptyString)) by exact N0.
    destruct (decide (t = "group")) as [->|N2].
    + simpl. rewrite <- Permutation_middle. now apply Permutation_skip.
    + rewrite (bool_decide_eq_false_2 (t = "group")) by exact N2.
      destruct (decide (t = "private")) as [->|N3].
      * simpl. rewrite app_assoc, <- Permutation_middle, <- app_assoc.
        now apply Permutation_skip.
      * rewrite (bool_decide_eq_false_2 (t = "private")) by exact N3.
        simpl. exact IH.
  - now apply Permutation_skip.
Qed.

End PresetGroups.
